(** * GPT-OSS agents: the conversational agent and the multi-agent crew

    A shallow embedding of [simple_agent.py] and [advanced_agent.py].

    - Python [str] is a sequence of Unicode code points: [str := list N].
    - Python [dict] is insertion ordered with unique keys: an association
      list maintained by [dict_set].
    - The HTTP endpoints, the clock and Python's [repr] are the environment:
      Section variables that may depend on everything that happened before
      (the event log).
    - Exceptions are data: a computation returns [Ok v] or [Raise e], and
      effects made before a raise stay made.
    - Console output ([print]) is not modelled, except for the evaluation
      of what is printed where that can raise. *)

From Stdlib Require Import List NArith ZArith QArith Lia Bool Ascii String.
From Stdlib Require Decimal DecimalNat DecimalFacts.
Import ListNotations.

Set Implicit Arguments.
Local Open Scope N_scope.

(** ** Text *)

Definition str := list N.

(** [ord c] is the code point of an ASCII character, [lit s] the text of an
    ASCII literal. *)
Definition ord (c : ascii) : N := N_of_ascii c.

Definition lit (s : string) : str := List.map ord (list_ascii_of_string s).

(** [jlit s] is [lit s] with every apostrophe standing for a double quote,
    to write JSON documents. *)
Definition jlit (s : string) : str :=
  List.map (fun c => if c =? 39 then 34 else c) (lit s).

Definition str_eqb (a b : str) : bool :=
  if list_eq_dec N.eq_dec a b then true else false.

(** [s.startswith(p)]. *)
Fixpoint startswith (p s : str) : bool :=
  match p, s with
  | [], _ => true
  | _ :: _, [] => false
  | a :: p', b :: s' => (a =? b) && startswith p' s'
  end.

(** [sub in s]: [sub] occurs in [s] at some position. *)
Fixpoint contains (sub s : str) : bool :=
  startswith sub s ||
  match s with
  | [] => false
  | _ :: s' => contains sub s'
  end.

(** [str.isspace] on one code point (CPython's [_PyUnicode_IsWhitespace]). *)
Definition isspace (c : N) : bool :=
  ((9 <=? c) && (c <=? 13)) || ((28 <=? c) && (c <=? 32)) ||
  (c =? 133) || (c =? 160) || (c =? 5760) ||
  ((8192 <=? c) && (c <=? 8202)) || (c =? 8232) || (c =? 8233) ||
  (c =? 8239) || (c =? 8287) || (c =? 12288).

Fixpoint lstrip (s : str) : str :=
  match s with
  | [] => []
  | c :: s' => if isspace c then lstrip s' else s
  end.

Definition rstrip (s : str) : str := rev (lstrip (rev s)).

(** [s.strip()]. *)
Definition strip (s : str) : str := rstrip (lstrip s).

(** [l[-n:]] for [n > 0]: the last [n] elements, all of [l] when it is
    shorter. *)
Definition last_n {A} (n : nat) (l : list A) : list A :=
  skipn (List.length l - n)%nat l.

(** [sep.join(l)]. *)
Fixpoint join (sep : str) (l : list str) : str :=
  match l with
  | [] => []
  | [x] => x
  | x :: l' => x ++ sep ++ join sep l'
  end.

(** Decimal rendering of a non-negative [int], as an f-string prints it. *)
Fixpoint digits_of_uint (u : Decimal.uint) : str :=
  match u with
  | Decimal.Nil => []
  | Decimal.D0 u => 48 :: digits_of_uint u
  | Decimal.D1 u => 49 :: digits_of_uint u
  | Decimal.D2 u => 50 :: digits_of_uint u
  | Decimal.D3 u => 51 :: digits_of_uint u
  | Decimal.D4 u => 52 :: digits_of_uint u
  | Decimal.D5 u => 53 :: digits_of_uint u
  | Decimal.D6 u => 54 :: digits_of_uint u
  | Decimal.D7 u => 55 :: digits_of_uint u
  | Decimal.D8 u => 56 :: digits_of_uint u
  | Decimal.D9 u => 57 :: digits_of_uint u
  end.

Definition str_of_nat (n : nat) : str := digits_of_uint (Nat.to_uint n).

(** ** Python dictionaries *)

Definition dict (V : Type) := list (str * V).

Fixpoint dict_get {V} (d : dict V) (k : str) : option V :=
  match d with
  | [] => None
  | (k', v) :: d' => if str_eqb k' k then Some v else dict_get d' k
  end.

(** [d[k] = v]: an existing key keeps its position, a new key goes last. *)
Fixpoint dict_set {V} (d : dict V) (k : str) (v : V) : dict V :=
  match d with
  | [] => [(k, v)]
  | (k', v') :: d' =>
      if str_eqb k' k then (k', v) :: d' else (k', v') :: dict_set d' k v
  end.

Definition dict_keys {V} (d : dict V) : list str := List.map fst d.

(** ** JSON values, as [json.loads] and [response.json()] produce them

    [JNull] is Python's [None], [JObj] a [dict], [JArr] a [list]. *)

#[warnings="-register-all"]
Inductive JValue : Type :=
| JNull
| JBool (b : bool)
| JNum (lexeme : str)
| JStr (s : str)
| JArr (items : list JValue)
| JObj (members : list (str * JValue)).

(** ** Exceptions and results *)

Inductive Exn : Type :=
| Exception (msg : str)
| JSONDecodeError
| AttributeError
| KeyError
| IndexError
| TypeError
| ValueError
| RecursionError.

Inductive Result (A : Type) : Type :=
| Ok (a : A)
| Raise (e : Exn).
Arguments Ok {A} a.
Arguments Raise {A} e.

(** ** The standard library's [json.loads]

    A model of CPython's [json.decoder] with its default (strict) settings.
    A number keeps its lexeme.  Besides [JSONDecodeError] the decoder
    raises [RecursionError], when more objects and arrays are open at once
    than the interpreter allows, and [ValueError], when an integer has more
    digits than the interpreter converts. *)
Module Json.

(** The limits of the interpreter the decoder runs in: how many objects and
    arrays may be open at once (what is left of [sys.getrecursionlimit()],
    1000 by default, at the call), and [sys.get_int_max_str_digits()],
    4300 by default, 0 for no limit. *)
Record Limits : Type := {
  recursion_limit : nat;
  int_max_str_digits : nat
}.

(** What the decoder does at a position: a value and the rest of the text,
    a syntax error, another exception, or no fuel left. *)
Inductive PR (A : Type) : Type :=
| POk (a : A) (rest : str)
| PErr
| PExn (e : Exn)
| PFuel.
Arguments POk {A} a rest.
Arguments PErr {A}.
Arguments PExn {A} e.
Arguments PFuel {A}.

(** JSON whitespace: space, tab, line feed, carriage return. *)
Definition is_ws (c : N) : bool :=
  (c =? 32) || (c =? 9) || (c =? 10) || (c =? 13).

Fixpoint skip_ws (s : str) : str :=
  match s with
  | [] => []
  | c :: s' => if is_ws c then skip_ws s' else s
  end.

Definition is_digit (c : N) : bool := (48 <=? c) && (c <=? 57).

Definition hexval (c : N) : option N :=
  if is_digit c then Some (c - 48)
  else if (97 <=? c) && (c <=? 102) then Some (c - 87)
  else if (65 <=? c) && (c <=? 70) then Some (c - 55)
  else None.

Definition hex4 (a b c d : N) : option N :=
  match hexval a, hexval b, hexval c, hexval d with
  | Some x, Some y, Some z, Some w => Some (((x * 16 + y) * 16 + z) * 16 + w)
  | _, _, _, _ => None
  end.

Definition is_high_surrogate (u : N) : bool := (55296 <=? u) && (u <=? 56319).
Definition is_low_surrogate (u : N) : bool := (56320 <=? u) && (u <=? 57343).

Definition join_surrogates (hi lo : N) : N :=
  65536 + ((hi - 55296) * 1024 + (lo - 56320)).

(** The escapes of one character: quote, backslash, slash, b, f, n, r, t. *)
Definition backslash (e : N) : option N :=
  if e =? 34 then Some 34
  else if e =? 92 then Some 92
  else if e =? 47 then Some 47
  else if e =? 98 then Some 8
  else if e =? 102 then Some 12
  else if e =? 110 then Some 10
  else if e =? 114 then Some 13
  else if e =? 116 then Some 9
  else None.

(** [scanstring], called just after the opening quote: the decoded text and
    what follows the closing quote. *)
Fixpoint scanstring (s : str) : option (str * str) :=
  match s with
  | [] => None
  | c :: r =>
      if c =? 34 then Some ([], r)
      else if c <? 32 then None
      else if c =? 92 then
        match r with
        | [] => None
        | e :: r1 =>
            if e =? 117 then
              match r1 with
              | h1 :: h2 :: h3 :: h4 :: r2 =>
                  match hex4 h1 h2 h3 h4 with
                  | None => None
                  | Some uni =>
                      match r2 with
                      | b :: u :: r3 =>
                          if is_high_surrogate uni && (b =? 92) && (u =? 117)
                          then
                            match r3 with
                            | g1 :: g2 :: g3 :: g4 :: r4 =>
                                match hex4 g1 g2 g3 g4 with
                                | None => None
                                | Some uni2 =>
                                    if is_low_surrogate uni2 then
                                      match scanstring r4 with
                                      | Some (x, rest) =>
                                          Some (join_surrogates uni uni2 :: x,
                                                rest)
                                      | None => None
                                      end
                                    else
                                      match scanstring r2 with
                                      | Some (x, rest) => Some (uni :: x, rest)
                                      | None => None
                                      end
                                end
                            | _ => None
                            end
                          else
                            match scanstring r2 with
                            | Some (x, rest) => Some (uni :: x, rest)
                            | None => None
                            end
                      | _ =>
                          match scanstring r2 with
                          | Some (x, rest) => Some (uni :: x, rest)
                          | None => None
                          end
                      end
                  end
              | _ => None
              end
            else
              match backslash e with
              | None => None
              | Some ch =>
                  match scanstring r1 with
                  | Some (x, rest) => Some (ch :: x, rest)
                  | None => None
                  end
              end
        end
      else
        match scanstring r with
        | Some (x, rest) => Some (c :: x, rest)
        | None => None
        end
  end.

Fixpoint span_digits (s : str) : str * str :=
  match s with
  | [] => ([], [])
  | c :: r =>
      if is_digit c then let (d, r') := span_digits r in (c :: d, r')
      else ([], s)
  end.

(** The integer part: an optional minus, then a lone 0 or a digit 1-9
    followed by digits. *)
Definition match_int (s : str) : option (str * str) :=
  let (sign, s1) :=
    match s with
    | c :: r => if c =? 45 then ([45], r) else ([], s)
    | [] => ([], s)
    end in
  match s1 with
  | c :: r =>
      if c =? 48 then Some (sign ++ [48], r)
      else if is_digit c then
        let (d, r') := span_digits r in Some (sign ++ c :: d, r')
      else None
  | [] => None
  end.

(** The optional fraction: a dot and at least one digit. *)
Definition match_frac (s : str) : str * str :=
  match s with
  | c :: r =>
      if c =? 46 then
        match span_digits r with
        | ([], _) => ([], s)
        | (d, r') => (c :: d, r')
        end
      else ([], s)
  | [] => ([], s)
  end.

(** The optional exponent: e or E, an optional sign, at least one digit. *)
Definition match_exp (s : str) : str * str :=
  match s with
  | c :: r =>
      if (c =? 101) || (c =? 69) then
        let (sign, r1) :=
          match r with
          | g :: r' => if (g =? 45) || (g =? 43) then ([g], r') else ([], r)
          | [] => ([], r)
          end in
        match span_digits r1 with
        | ([], _) => ([], s)
        | (d, r') => (c :: sign ++ d, r')
        end
      else ([], s)
  | [] => ([], s)
  end.

Definition match_number (s : str) : option (str * str) :=
  match match_int s with
  | None => None
  | Some (i, r) =>
      let (f, r1) := match_frac r in
      let (e, r2) := match_exp r1 in
      Some (i ++ f ++ e, r2)
  end.

(** A constant such as [null]: the literal and the rest after it. *)
Definition keyword (k : str) (s : str) : option str :=
  if startswith k s then Some (skipn (List.length k) s) else None.

(** An integer, a number without fraction and exponent, is converted by
    [int], which refuses more digits than the limit. *)
Definition is_integer (lex : str) : bool :=
  forallb (fun c => is_digit c || (c =? 45)) lex.

Definition too_many_digits (lim : Limits) (lex : str) : bool :=
  is_integer lex
  && (0 <? int_max_str_digits lim)%nat
  && (int_max_str_digits lim <? List.length (filter is_digit lex))%nat.

(** What [scan_once] does for anything but a string, an object or an
    array. *)
Definition scan_atom (lim : Limits) (s : str) : PR JValue :=
  match keyword (lit "null") s with
  | Some r => POk JNull r
  | None =>
  match keyword (lit "true") s with
  | Some r => POk (JBool true) r
  | None =>
  match keyword (lit "false") s with
  | Some r => POk (JBool false) r
  | None =>
  match match_number s with
  | Some (lex, r) =>
      if too_many_digits lim lex then PExn ValueError else POk (JNum lex) r
  | None =>
  match keyword (lit "NaN") s with
  | Some r => POk (JNum (lit "NaN")) r
  | None =>
  match keyword (lit "Infinity") s with
  | Some r => POk (JNum (lit "Infinity")) r
  | None =>
  match keyword (lit "-Infinity") s with
  | Some r => POk (JNum (lit "-Infinity")) r
  | None => PErr
  end end end end end end end.

(** [scan_once] at the start of [s]; [parse_members] just after the opening
    quote of a key, [parse_items] at the start of an array item; [depth] is
    the number of objects and arrays open around the position.  Every
    recursive call spends one unit of [fuel]; more than twice the length of
    the text is always enough ([scan_once_fuel] below). *)
Fixpoint scan_once (lim : Limits) (fuel depth : nat) (s : str) : PR JValue :=
  match fuel with
  | O => PFuel
  | S f =>
      match s with
      | [] => PErr
      | c :: r =>
          if c =? 34 then
            match scanstring r with
            | Some (x, rest) => POk (JStr x) rest
            | None => PErr
            end
          else if c =? 123 then
            if (depth <? recursion_limit lim)%nat then
              match skip_ws r with
              | d :: r1 =>
                  if d =? 125 then POk (JObj []) r1
                  else if d =? 34 then parse_members lim f (S depth) r1 []
                  else PErr
              | [] => PErr
              end
            else PExn RecursionError
          else if c =? 91 then
            if (depth <? recursion_limit lim)%nat then
              match skip_ws r with
              | d :: r1 =>
                  if d =? 93 then POk (JArr []) r1
                  else parse_items lim f (S depth) (d :: r1) []
              | [] => PErr
              end
            else PExn RecursionError
          else scan_atom lim s
      end
  end

with parse_members (lim : Limits) (fuel depth : nat) (s : str)
    (acc : dict JValue) : PR JValue :=
  match fuel with
  | O => PFuel
  | S f =>
      match scanstring s with
      | None => PErr
      | Some (key, r1) =>
          match skip_ws r1 with
          | c :: r2 =>
              if c =? 58 then
                match scan_once lim f depth (skip_ws r2) with
                | POk v r3 =>
                    let acc' := dict_set acc key v in
                    match skip_ws r3 with
                    | d :: r4 =>
                        if d =? 125 then POk (JObj acc') r4
                        else if d =? 44 then
                          match skip_ws r4 with
                          | q :: r5 =>
                              if q =? 34 then parse_members lim f depth r5 acc'
                              else PErr
                          | [] => PErr
                          end
                        else PErr
                    | [] => PErr
                    end
                | PErr => PErr
                | PExn e => PExn e
                | PFuel => PFuel
                end
              else PErr
          | [] => PErr
          end
      end
  end

with parse_items (lim : Limits) (fuel depth : nat) (s : str)
    (acc : list JValue) : PR JValue :=
  match fuel with
  | O => PFuel
  | S f =>
      match scan_once lim f depth s with
      | POk v r1 =>
          let acc' := acc ++ [v] in
          match skip_ws r1 with
          | d :: r2 =>
              if d =? 93 then POk (JArr acc') r2
              else if d =? 44 then parse_items lim f depth (skip_ws r2) acc'
              else PErr
          | [] => PErr
          end
      | PErr => PErr
      | PExn e => PExn e
      | PFuel => PFuel
      end
  end.

(** [json.loads(s)]: [JSONDecodeError] on a byte order mark, on a syntax
    error and on data after the value; [RecursionError] and [ValueError]
    as the decoder raises them. *)
Definition loads (lim : Limits) (s : str) : Result JValue :=
  if startswith [65279] s then Raise JSONDecodeError
  else
    match scan_once lim (S (2 * List.length s)) 0 (skip_ws s) with
    | POk v rest =>
        match skip_ws rest with
        | [] => Ok v
        | _ :: _ => Raise JSONDecodeError
        end
    | PExn e => Raise e
    | _ => Raise JSONDecodeError
    end.

(** The defaults of CPython, and limits that a text cannot reach: with the
    latter a text is refused only for its syntax. *)
Definition cpython : Limits :=
  {| recursion_limit := 1000; int_max_str_digits := 4300 |}.


End Json.

(** ** [simple_agent.py]: the conversational agent *)
Module SimpleAgent.

Record AgentConfig : Type := {
  model_url : str;
  model_name : str;
  max_tokens : Z;
  temperature : Q;
  reasoning_level : str
}.

Definition default_config : AgentConfig := {|
  model_url := lit "http://localhost:12434/engines/llama.cpp/v1";
  model_name := lit "ai/gpt-oss";
  max_tokens := 1000%Z;
  temperature := (7 # 10)%Q;
  reasoning_level := lit "medium"
|}.

Definition set_reasoning_level (c : AgentConfig) (level : str) : AgentConfig :=
  {| model_url := model_url c;
     model_name := model_name c;
     max_tokens := max_tokens c;
     temperature := temperature c;
     reasoning_level := level |}.

(** A message is a dict with the keys role and content; the content of an
    assistant entry is whatever the endpoint's body holds there. *)
Record Message : Type := {
  role : str;
  content : JValue
}.

Record GPTOSSAgent : Type := {
  config : AgentConfig;
  conversation_history : list Message
}.

(** [GPTOSSAgent(config)]: [config or AgentConfig()], an empty history. *)
Definition init (cfg : option AgentConfig) : GPTOSSAgent :=
  {| config := match cfg with Some c => c | None => default_config end;
     conversation_history := [] |}.

Record Payload : Type := {
  p_url : str;
  p_model : str;
  p_messages : list Message;
  p_max_tokens : Z;
  p_temperature : Q;
  p_stream : bool
}.

(** What [requests.post], [raise_for_status] and [response.json()] come to:
    a [requests.RequestException] (transport failure, timeout, HTTP error
    status, undecodable body), some other exception, or the decoded body. *)
Inductive HttpOutcome : Type :=
| RequestException (msg : str)
| OtherException (e : Exn)
| Body (j : JValue).

Inductive Event : Type :=
| Post (p : Payload) (o : HttpOutcome).

(** [v[k]] for a string key and [v[0]], on a decoded JSON value. *)
Definition getitem_key (v : JValue) (k : str) : Result JValue :=
  match v with
  | JObj d =>
      match dict_get d k with
      | Some x => Ok x
      | None => Raise KeyError
      end
  | _ => Raise TypeError
  end.

Definition getitem_0 (v : JValue) : Result JValue :=
  match v with
  | JArr (x :: _) => Ok x
  | JArr [] => Raise IndexError
  | JStr (c :: _) => Ok (JStr [c])
  | JStr [] => Raise IndexError
  | JObj d =>
      (* a decoded object has string keys only *)
      Raise KeyError
  | _ => Raise TypeError
  end.

Definition bind {A B} (r : Result A) (k : A -> Result B) : Result B :=
  match r with
  | Ok a => k a
  | Raise e => Raise e
  end.

(** [response["choices"][0]["message"]["content"]]. *)
Definition first_choice_content (response : JValue) : Result JValue :=
  bind (getitem_key response (lit "choices")) (fun choices =>
  bind (getitem_0 choices) (fun choice =>
  bind (getitem_key choice (lit "message")) (fun message =>
  getitem_key message (lit "content")))).

Definition think_system_prompt : str :=
  lit "You are an expert problem solver. Break down complex tasks into steps, "
  ++ [10] ++
  lit "        analyze each component carefully, and provide detailed reasoning for your approach.".

(** The body [_make_request] posts. *)
Definition request_payload (self : GPTOSSAgent) (messages : list Message)
    : Payload :=
  {| p_url := model_url (config self) ++ lit "/chat/completions";
     p_model := model_name (config self);
     p_messages := messages;
     p_max_tokens := max_tokens (config self);
     p_temperature := temperature (config self);
     p_stream := false |}.

(** The messages [chat] sends. *)
Definition chat_messages (self : GPTOSSAgent) (user_input : str)
    (system_prompt : option str) : list Message :=
  let system_message :=
    match system_prompt with
    | Some (c :: p) =>
        {| role := lit "system";
           content := JStr ((c :: p) ++ [10] ++ lit "Reasoning: "
                            ++ reasoning_level (config self)) |}
    | _ =>
        {| role := lit "system";
           content := JStr (lit "You are a helpful AI assistant. Reasoning: "
                            ++ reasoning_level (config self)) |}
    end in
  [system_message] ++ conversation_history self
  ++ [{| role := lit "user"; content := JStr user_input |}].

Section Environment.

(** The completion endpoint: its answer to a request, given everything that
    happened before. *)
Variable endpoint : list Event -> Payload -> HttpOutcome.

Definition _make_request (self : GPTOSSAgent) (messages : list Message)
    (log : list Event) : Result JValue * list Event :=
  let payload := request_payload self messages in
  let outcome := endpoint log payload in
  let log' := log ++ [Post payload outcome] in
  match outcome with
  | Body j => (Ok j, log')
  | RequestException e =>
      (Raise (Exception (lit "Error communicating with model: " ++ e)), log')
  | OtherException e => (Raise e, log')
  end.

Definition chat (self : GPTOSSAgent) (user_input : str)
    (system_prompt : option str) (log : list Event)
    : Result JValue * GPTOSSAgent * list Event :=
  let messages := chat_messages self user_input system_prompt in
  match _make_request self messages log with
  | (Raise e, log') => (Raise e, self, log')
  | (Ok response, log') =>
      match first_choice_content response with
      | Raise e => (Raise e, self, log')
      | Ok assistant_response =>
          let history :=
            conversation_history self
            ++ [{| role := lit "user"; content := JStr user_input |}]
            ++ [{| role := lit "assistant"; content := assistant_response |}] in
          let history' :=
            if (10 <? List.length history)%nat then last_n 10 history
            else history in
          (Ok assistant_response,
           {| config := config self; conversation_history := history' |},
           log')
      end
  end.

(** [think]: the [finally] clause runs on both exits of [chat]. *)
Definition think (self : GPTOSSAgent) (task : str) (level : str)
    (log : list Event) : Result JValue * GPTOSSAgent * list Event :=
  let original_level := reasoning_level (config self) in
  let self1 :=
    {| config := set_reasoning_level (config self) level;
       conversation_history := conversation_history self |} in
  let '(result, self2, log') := chat self1 task (Some think_system_prompt) log in
  (result,
   {| config := set_reasoning_level (config self2) original_level;
      conversation_history := conversation_history self2 |},
   log').

Definition reset_conversation (self : GPTOSSAgent) : GPTOSSAgent :=
  {| config := config self; conversation_history := [] |}.

(** The calls a client can make on one agent, and a run of them. *)
Inductive Call : Type :=
| CallChat (user_input : str) (system_prompt : option str)
| CallThink (task : str) (level : str)
| CallReset.

Definition call (c : Call) (self : GPTOSSAgent) (log : list Event)
    : GPTOSSAgent * list Event :=
  match c with
  | CallChat u sp => let '(_, self', log') := chat self u sp log in (self', log')
  | CallThink t l => let '(_, self', log') := think self t l log in (self', log')
  | CallReset => (reset_conversation self, log)
  end.

Fixpoint run (cs : list Call) (self : GPTOSSAgent) (log : list Event)
    : GPTOSSAgent * list Event :=
  match cs with
  | [] => (self, log)
  | c :: cs' => let '(self', log') := call c self log in run cs' self' log'
  end.

End Environment.

End SimpleAgent.

(** ** [advanced_agent.py]: the crew of role agents *)
Module AdvancedAgent.

Record AgentConfig : Type := {
  model_url : str;
  model_name : str;
  mcp_gateway_url : str;
  reasoning_level : str;
  max_tokens : Z;
  temperature : Q
}.

Definition default_config : AgentConfig := {|
  model_url := lit "http://localhost:12434/engines/llama.cpp/v1";
  model_name := lit "ai/gpt-oss-20b";
  mcp_gateway_url := lit "http://localhost:3000";
  reasoning_level := lit "medium";
  max_tokens := 2000%Z;
  temperature := (7 # 10)%Q
|}.

(** A message is a dict with the keys role and content; the content of an
    assistant entry is whatever the endpoint's body holds there. *)
Record Message : Type := {
  msg_role : str;
  content : JValue
}.

Record MCPToolManager : Type := {
  gateway_url : str;
  available_tools : JValue
}.

Record CrewAgent : Type := {
  role : str;
  goal : str;
  backstory : str;
  tools : list str;
  conversation_history : list Message
}.

(** [CrewAgent(role, goal, backstory, tools)]: [tools or []], an empty
    history. *)
Definition new_agent (role goal backstory : str) (tools : option (list str))
    : CrewAgent :=
  {| role := role; goal := goal; backstory := backstory;
     tools := match tools with Some t => t | None => [] end;
     conversation_history := [] |}.

Definition append_history (a : CrewAgent) (m : Message) : CrewAgent :=
  {| role := role a; goal := goal a; backstory := backstory a;
     tools := tools a;
     conversation_history := conversation_history a ++ [m] |}.

Definition get_system_prompt (self : CrewAgent) : str :=
  let tools_desc :=
    match tools self with
    | [] => lit "No tools available"
    | _ :: _ => lit "Available tools: " ++ join (lit ", ") (tools self)
    end in
  lit "You are a " ++ role self ++ lit "." ++ [10; 10]
  ++ lit "Goal: " ++ goal self ++ [10; 10]
  ++ lit "Backstory: " ++ backstory self ++ [10; 10]
  ++ tools_desc ++ [10; 10]
  ++ lit "When using tools, respond with JSON in this format:" ++ [10]
  ++ jlit "{'action': 'use_tool', 'tool': 'tool_name', 'parameters': {'param': 'value'}}"
  ++ [10; 10]
  ++ lit "Otherwise, respond normally to help achieve your goal.".

Record Step : Type := {
  agent : str;
  task : str
}.

Record StepResult : Type := {
  sr_task : str;
  result : JValue;
  timestamp : str
}.

Record WorkflowRecord : Type := {
  wr_workflow : list Step;
  wr_results : dict StepResult;
  wr_timestamp : str
}.

(** Agents are objects: the crew maps a name to a reference, and the heap
    holds the object, so one agent added under two names shares its
    history. *)
Definition loc := nat.

Record MultiAgentSystem : Type := {
  config : AgentConfig;
  mcp_manager : MCPToolManager;
  agents : dict loc;
  task_results : list WorkflowRecord
}.

Record Payload : Type := {
  p_url : str;
  p_model : str;
  p_messages : list Message;
  p_max_tokens : Z;
  p_temperature : Q
}.

(** The three requests and what they come to.  In [_make_llm_request] and
    [call_tool] every exception ends in the one handler, so a failure is
    its message; a completion that succeeds yields the content of the first
    choice, of whatever JSON type it is. *)
Inductive CompletionOutcome : Type :=
| Completed (content : JValue)
| Failed (msg : str).

Inductive GatewayOutcome : Type :=
| Returned (j : JValue)
| CallFailed (msg : str).

(** [GET /tools]: a transport exception, or a status code together with
    what [response.json()] does on the body. *)
Inductive DiscoveryOutcome : Type :=
| Unreachable (msg : str)
| Status (code : Z) (body : Result JValue).

Inductive Event : Type :=
| GetTools (url : str) (o : DiscoveryOutcome)
| PostCompletion (p : Payload) (o : CompletionOutcome)
| PostCall (url : str) (tool parameters : JValue) (o : GatewayOutcome)
| Now (t : str).

Record State : Type := {
  self : MultiAgentSystem;
  heap : loc -> CrewAgent;
  log : list Event
}.

Definition heap_set (h : loc -> CrewAgent) (l : loc) (a : CrewAgent)
    : loc -> CrewAgent :=
  fun l' => if Nat.eqb l' l then a else h l'.

Definition with_log (st : State) (e : Event) : State :=
  {| self := self st; heap := heap st; log := log st ++ [e] |}.

Definition with_heap (st : State) (h : loc -> CrewAgent) : State :=
  {| self := self st; heap := h; log := log st |}.

(** [len(v)]. *)
Definition py_len (v : JValue) : Result nat :=
  match v with
  | JObj d => Ok (List.length d)
  | JArr l => Ok (List.length l)
  | JStr s => Ok (List.length s)
  | _ => Raise TypeError
  end.

(** [v.get(k, default)]; only a dict has [get]. *)
Definition py_get (v : JValue) (k : str) (default : JValue) : Result JValue :=
  match v with
  | JObj d =>
      match dict_get d k with
      | Some x => Ok x
      | None => Ok default
      end
  | _ => Raise AttributeError
  end.

(** [v == "use_tool"]. *)
Definition is_use_tool (v : JValue) : bool :=
  match v with
  | JStr s => str_eqb s (lit "use_tool")
  | _ => false
  end.

Definition bind {A B} (r : Result A) (k : A -> Result B) : Result B :=
  match r with
  | Ok a => k a
  | Raise e => Raise e
  end.

(** [f"step_{i}_{agent_name}"]. *)
Definition step_key (i : nat) (agent_name : str) : str :=
  lit "step_" ++ str_of_nat i ++ lit "_" ++ agent_name.

(** The line a finished step adds to the context. *)
Definition context_line (agent_name result : str) : str :=
  [10] ++ agent_name ++ lit " completed: " ++ result ++ [10].

Definition task_prompt (task context : str) : str :=
  lit "Task: " ++ task ++
  match context with
  | [] => []
  | _ :: _ => [10; 10] ++ lit "Context from previous agents: " ++ context
  end.

(** The messages [execute_agent_task] starts from. *)
Definition task_messages (agent : CrewAgent) (task context : str)
    : list Message :=
  [{| msg_role := lit "system"; content := JStr (get_system_prompt agent) |}]
  ++ last_n 6 (conversation_history agent)
  ++ [{| msg_role := lit "user";
         content := JStr (task_prompt task context) |}].

(** The body [_make_llm_request] posts. *)
Definition llm_payload (self : MultiAgentSystem) (messages : list Message)
    : Payload :=
  {| p_url := model_url (config self) ++ lit "/chat/completions";
     p_model := model_name (config self);
     p_messages := messages;
     p_max_tokens := max_tokens (config self);
     p_temperature := temperature (config self) |}.

(** What [_make_llm_request] returns for an outcome of the request. *)
Definition response_value (o : CompletionOutcome) : JValue :=
  match o with
  | Completed content => content
  | Failed e => JStr (lit "Error: " ++ e)
  end.

(** [result[:200]] and [len(result)], which the workflow evaluates to
    print a result: a text and a list can be sliced and measured, a dict
    cannot be sliced ([TypeError]; [KeyError] from Python 3.12 on), and
    nothing else can be subscripted. *)
Definition preview (result : JValue) : Result unit :=
  match result with
  | JStr _ => Ok tt
  | JArr _ => Ok tt
  | _ => Raise TypeError
  end.

(** What [call_tool] returns for an outcome of the request. *)
Definition gateway_result (o : GatewayOutcome) : JValue :=
  match o with
  | Returned j => j
  | CallFailed e => JObj [(lit "error", JStr (lit "Tool call failed: " ++ e))]
  end.

(** The two entries a finished task adds to the history of its agent. *)
Definition task_entries (task context : str) (response : JValue)
    : list Message :=
  [{| msg_role := lit "user"; content := JStr (task_prompt task context) |};
   {| msg_role := lit "assistant"; content := response |}].

Section Environment.

(** The completion endpoint, the tool gateway and the clock: their answers,
    given everything that happened before.  [py_repr] is Python's [repr] of
    a value that is not a [str]; the values it is given here are ones the
    decoder has built, which [repr] can print. *)
Variable completions : list Event -> Payload -> CompletionOutcome.
Variable gateway_tools : list Event -> str -> DiscoveryOutcome.
Variable gateway_call : list Event -> str -> JValue -> JValue -> GatewayOutcome.
Variable clock : list Event -> str.
Variable py_repr : JValue -> str.

(** The limits of the interpreter, for [json.loads]. *)
Variable limits : Json.Limits.

(** [f"{v}"]: a [str] as it is, anything else by its [repr]. *)
Definition format (v : JValue) : str :=
  match v with
  | JStr s => s
  | _ => py_repr v
  end.

(** The messages of the second request: the first ones, the tool request
    of the agent and the result of the tool. *)
Definition continuation (messages : list Message) (response : str)
    (tool_name tool_result : JValue) : list Message :=
  let tool_context :=
    lit "Tool " ++ format tool_name ++ lit " returned: "
    ++ format tool_result in
  messages
  ++ [{| msg_role := lit "assistant"; content := JStr response |}]
  ++ [{| msg_role := lit "user";
         content := JStr (lit "Tool result: " ++ tool_context
                          ++ lit ". Please provide your final response.") |}].

(** [MCPToolManager._discover_tools].  The result says whether the method
    returns or raises. *)
Definition _discover_tools (self : MCPToolManager) (log : list Event)
    : Result unit * MCPToolManager * list Event :=
  let url := gateway_url self ++ lit "/tools" in
  let o := gateway_tools log url in
  let log' := log ++ [GetTools url o] in
  let '(r, self') :=
    (* the body of the try *)
    match o with
    | Unreachable e => (Raise (Exception e), self)
    | Status code body =>
        if (code =? 200)%Z then
          match body with
          | Raise e => (Raise e, self)
          | Ok j =>
              let self' := {| gateway_url := gateway_url self;
                              available_tools := j |} in
              match py_len j with
              | Ok _ => (Ok tt, self')
              | Raise e => (Raise e, self')
              end
          end
        else (Ok tt, self)
    end in
  match r with
  | Ok _ => (Ok tt, self', log')
  | Raise _ => (* except Exception *) (Ok tt, self', log')
  end.

(** [MCPToolManager(gateway_url)]. *)
Definition new_manager (gateway_url : str) (log : list Event)
    : Result MCPToolManager * list Event :=
  let self := {| gateway_url := gateway_url; available_tools := JObj [] |} in
  match _discover_tools self log with
  | (Ok _, self', log') => (Ok self', log')
  | (Raise e, _, log') => (Raise e, log')
  end.

Definition call_tool (self : MCPToolManager) (tool_name parameters : JValue)
    (log : list Event) : JValue * list Event :=
  let url := gateway_url self ++ lit "/call" in
  let o := gateway_call log url tool_name parameters in
  let log' := log ++ [PostCall url tool_name parameters o] in
  (gateway_result o, log').

(** [MultiAgentSystem(config)]. *)
Definition new_system (cfg : option AgentConfig) (h : loc -> CrewAgent)
    (log : list Event) : Result State * list Event :=
  let config := match cfg with Some c => c | None => default_config end in
  match new_manager (mcp_gateway_url config) log with
  | (Ok m, log') =>
      (Ok {| self := {| config := config; mcp_manager := m;
                        agents := []; task_results := [] |};
             heap := h; log := log' |}, log')
  | (Raise e, log') => (Raise e, log')
  end.

(** [add_agent(name, agent)], the agent being the object at [l]. *)
Definition add_agent (name : str) (l : loc) (st : State) : State :=
  {| self := {| config := config (self st);
                mcp_manager := mcp_manager (self st);
                agents := dict_set (agents (self st)) name l;
                task_results := task_results (self st) |};
     heap := heap st; log := log st |}.

Definition _make_llm_request (messages : list Message)
    (agent_name : option str) (st : State) : JValue * State :=
  let payload := llm_payload (self st) messages in
  let o := completions (log st) payload in
  let st' := with_log st (PostCompletion payload o) in
  (response_value o, st').

(** What is done with a tool call once the response is decoded: the value
    the task goes on with. *)
Definition run_tool_call (messages : list Message) (agent_name : str)
    (response : str) (tool_name parameters : JValue) (st : State)
    : JValue * State :=
  let '(tool_result, log') :=
    call_tool (mcp_manager (self st)) tool_name parameters (log st) in
  let st1 := {| self := self st; heap := heap st; log := log' |} in
  let messages' := continuation messages response tool_name tool_result in
  _make_llm_request messages' (Some agent_name) st1.

(** The body of the [try] in [execute_agent_task]: the response to go on
    with, or the exception that leaves the block.  [response.strip()]
    exists for a text only. *)
Definition resolve_tool_call (messages : list Message) (agent_name : str)
    (response : JValue) (st : State) : Result JValue * State :=
  match response with
  | JStr text =>
      if startswith (lit "{") (strip text) && contains (lit "action") text
      then
        match Json.loads limits text with
        | Raise e => (Raise e, st)
        | Ok action_data =>
            match py_get action_data (lit "action") JNull with
            | Raise e => (Raise e, st)
            | Ok action =>
                if is_use_tool action then
                  match py_get action_data (lit "tool") JNull with
                  | Raise e => (Raise e, st)
                  | Ok tool_name =>
                      match
                        py_get action_data (lit "parameters") (JObj [])
                      with
                      | Raise e => (Raise e, st)
                      | Ok parameters =>
                          let '(response', st2) :=
                            run_tool_call messages agent_name text tool_name
                                          parameters st in
                          (Ok response', st2)
                      end
                  end
                else (Ok response, st)
            end
        end
      else (Ok response, st)
  | _ => (Raise AttributeError, st)
  end.

Definition execute_agent_task (agent_name task context : str) (st : State)
    : Result JValue * State :=
  match dict_get (agents (self st)) agent_name with
  | None =>
      (Ok (JStr (lit "Agent " ++ agent_name ++ lit " not found")), st)
  | Some l =>
      let agent := heap st l in
      let messages := task_messages agent task context in
      let '(response, st1) :=
        _make_llm_request messages (Some agent_name) st in
      let '(r, st2) :=
        match resolve_tool_call messages agent_name response st1 with
        | (Raise JSONDecodeError, st') => (Ok response, st')
        | other => other
        end in
      match r with
      | Raise e => (Raise e, st2)
      | Ok response' =>
          let agent1 :=
            append_history (heap st2 l)
              {| msg_role := lit "user";
                 content := JStr (task_prompt task context) |} in
          let agent2 :=
            append_history agent1
              {| msg_role := lit "assistant"; content := response' |} in
          (Ok response', with_heap st2 (heap_set (heap st2) l agent2))
      end
  end.

(** [datetime.now().isoformat()]. *)
Definition now (st : State) : str * State :=
  let t := clock (log st) in (t, with_log st (Now t)).

(** The [for] loop of [execute_crew_workflow], from step number [i] on:
    the results and the context it ends with.  A step records its result,
    then prints a preview of it, then adds its line to the context. *)
Fixpoint crew_loop (i : nat) (steps : list Step) (results : dict StepResult)
    (context : str) (st : State) : Result (dict StepResult * str) * State :=
  match steps with
  | [] => (Ok (results, context), st)
  | step :: steps' =>
      let agent_name := agent step in
      match execute_agent_task agent_name (task step) context st with
      | (Raise e, st1) => (Raise e, st1)
      | (Ok res, st1) =>
          let '(t, st2) := now st1 in
          let results' :=
            dict_set results (step_key i agent_name)
              {| sr_task := task step; result := res; timestamp := t |} in
          match preview res with
          | Raise e => (Raise e, st2)
          | Ok _ =>
              crew_loop (S i) steps' results'
                (context ++ context_line agent_name (format res)) st2
          end
      end
  end.

Definition execute_crew_workflow (workflow : list Step) (st : State)
    : Result (dict StepResult) * State :=
  match crew_loop 1 workflow [] [] st with
  | (Raise e, st1) => (Raise e, st1)
  | (Ok (results, _), st1) =>
      let '(t, st2) := now st1 in
      (Ok results,
       {| self := {| config := config (self st2);
                     mcp_manager := mcp_manager (self st2);
                     agents := agents (self st2);
                     task_results :=
                       task_results (self st2)
                       ++ [{| wr_workflow := workflow;
                              wr_results := results;
                              wr_timestamp := t |}] |};
          heap := heap st2; log := log st2 |})
  end.

(** The steps of a workflow, one after the other, outside the loop: from
    the context [context] and the state [st], the steps [steps] give the
    results [rs] at the times [ts] and end in the state [st'].  Each step
    is one [execute_agent_task] that returns, with the context of the
    steps before it, followed by one reading of the clock. *)
Inductive runs : str -> State -> list Step -> list JValue -> list str ->
                 State -> Prop :=
| runs_nil context st : runs context st [] [] [] st
| runs_step context st step steps r st1 rs ts st' :
    execute_agent_task (agent step) (task step) context st = (Ok r, st1) ->
    preview r = Ok tt ->
    runs (context ++ context_line (agent step) (format r))
         (with_log st1 (Now (clock (log st1)))) steps rs ts st' ->
    runs context st (step :: steps) (r :: rs) (clock (log st1) :: ts) st'.

(** A completion the crew can always go on with: a text on which
    [json.loads], when the text is given to it, raises nothing but
    [JSONDecodeError]. *)
Definition goes_on (v : JValue) : bool :=
  match v with
  | JStr text =>
      if startswith (lit "{") (strip text) && contains (lit "action") text
      then
        match Json.loads limits text with
        | Raise JSONDecodeError => true
        | Raise _ => false
        | Ok _ => true
        end
      else true
  | _ => false
  end.

(** Every completion is one the crew can go on with. *)
Definition tame : Prop :=
  forall events payload,
    goes_on (response_value (completions events payload)) = true.

End Environment.

(** *** Vocabulary for the statements about a workflow

    For steps [steps] numbered from [i], with results [rs] and timestamps
    [ts]: the entries the loop records, the lines it adds to the context,
    and the entries it adds to the history of the agent object at [l]. *)
Fixpoint step_entries (i : nat) (steps : list Step) (rs : list JValue)
    (ts : list str) : dict StepResult :=
  match steps, rs, ts with
  | s :: steps', r :: rs', t :: ts' =>
      (step_key i (agent s),
       {| sr_task := task s; result := r; timestamp := t |})
      :: step_entries (S i) steps' rs' ts'
  | _, _, _ => []
  end.

Fixpoint context_lines (py_repr : JValue -> str) (steps : list Step)
    (rs : list JValue) : str :=
  match steps, rs with
  | s :: steps', r :: rs' =>
      context_line (agent s) (format py_repr r)
      ++ context_lines py_repr steps' rs'
  | _, _ => []
  end.

Fixpoint history_added (py_repr : JValue -> str) (agents : dict loc)
    (l : loc) (context : str) (steps : list Step) (rs : list JValue)
    : list Message :=
  match steps, rs with
  | s :: steps', r :: rs' =>
      match dict_get agents (agent s) with
      | Some l' =>
          if Nat.eqb l' l then task_entries (task s) context r else []
      | None => []
      end
      ++ history_added py_repr agents l
           (context ++ context_line (agent s) (format py_repr r)) steps' rs'
  | _, _ => []
  end.

(** An agent with entries added to its history. *)
Definition add_entries (a : CrewAgent) (ms : list Message) : CrewAgent :=
  {| role := role a; goal := goal a; backstory := backstory a;
     tools := tools a;
     conversation_history := conversation_history a ++ ms |}.

(** The steps of a workflow that run on the agent object at [l]. *)
Definition steps_on (agents : dict loc) (l : loc) (steps : list Step)
    : list Step :=
  filter (fun s => match dict_get agents (agent s) with
                   | Some l' => Nat.eqb l' l
                   | None => false
                   end) steps.

End AdvancedAgent.

(** ** A small crew and scripted environments, to run the definitions *)
Module Demo.

Import AdvancedAgent.

Definition researcher : CrewAgent :=
  new_agent (lit "Senior Research Analyst")
    (lit "Conduct thorough research on given topics using available tools")
    (lit "You are an experienced researcher with access to web search and data analysis tools.")
    (Some [lit "web_search"; lit "duckduckgo"; lit "wikipedia"]).

Definition analyst : CrewAgent :=
  new_agent (lit "Data Analyst")
    (lit "Analyze and synthesize research findings into insights")
    (lit "You specialize in analyzing complex information and extracting key insights.")
    (Some [lit "data_analysis"; lit "statistics"]).

Definition objects : loc -> CrewAgent :=
  fun l => match l with O => researcher | _ => analyst end.

(** A crew with the researcher and the analyst, no request made yet. *)
Definition crew : State :=
  {| self := {| config := default_config;
                mcp_manager := {| gateway_url := lit "http://localhost:3000";
                                  available_tools := JObj [] |};
                agents := [(lit "researcher", 0%nat); (lit "analyst", 1%nat)];
                task_results := [] |};
     heap := objects;
     log := [] |}.

Definition is_completion (e : Event) : bool :=
  match e with
  | PostCompletion _ _ => true
  | _ => false
  end.

(** An endpoint that answers its k-th request with the k-th content of a
    script, and refuses the connection after that. *)
Definition scripted_contents (responses : list JValue)
    : list Event -> Payload -> CompletionOutcome :=
  fun log _ =>
    match nth_error responses (List.length (filter is_completion log)) with
    | Some r => Completed r
    | None => Failed (lit "Connection refused")
    end.

(** The same for a script of texts. *)
Definition scripted (responses : list str)
    : list Event -> Payload -> CompletionOutcome :=
  scripted_contents (List.map JStr responses).

Definition gateway_ok : list Event -> str -> JValue -> JValue -> GatewayOutcome :=
  fun _ _ _ _ => Returned (JObj [(lit "status", JStr (lit "ok"))]).

Definition gateway_down : list Event -> str -> DiscoveryOutcome :=
  fun _ _ => Unreachable (lit "Connection refused").

(** A clock that shows the number of events so far. *)
Definition ticks : list Event -> str :=
  fun log => str_of_nat (List.length log).

Definition repr_opaque : JValue -> str := fun _ => lit "<value>".

(** The tool call of the specification, the same with the first letter of
    its action key escaped, and a text that is not JSON. *)
Definition tool_call : str :=
  jlit "{'action':'use_tool','tool':'t','parameters':{'x':1}}".

Definition escaped_tool_call : str :=
  jlit "{'\u0061ction':'use_tool','tool':'t','parameters':{'x':1}}".

Definition broken_tool_call : str := jlit "{'action': 'use_tool', 'tool': ".

(** A text that is not JSON and opens two thousand arrays, and a JSON
    document with an integer of 4400 digits. *)
Definition deep_text : str := jlit "{'action':" ++ repeat 91 2000.

Definition long_integer_text : str :=
  jlit "{'action': " ++ repeat 49 4400 ++ lit "}".

Definition tool_call_dict : dict JValue :=
  [(lit "action", JStr (lit "use_tool"));
   (lit "tool", JStr (lit "t"));
   (lit "parameters", JObj [(lit "x", JNum (lit "1"))])].

Definition two_steps : list Step :=
  [{| agent := lit "researcher"; task := lit "Research X" |};
   {| agent := lit "analyst"; task := lit "Analyze X" |}].

(** A completion endpoint of the conversational agent that is down. *)
Definition endpoint_down
    : list SimpleAgent.Event -> SimpleAgent.Payload -> SimpleAgent.HttpOutcome :=
  fun _ _ => SimpleAgent.RequestException (lit "Connection refused").

End Demo.

(** ** [simple_agent.py]: the availability check *)
Module Availability.

Import SimpleAgent.

(** [requests.get(url, timeout=10)]: an exception, or a status code together
    with what [response.json()] does on the body. *)
Inductive ModelsOutcome : Type :=
| Unreachable (msg : str)
| Status (code : Z) (body : Result JValue).

(** [v.get(k, default)]; only a dict has [get]. *)
Definition py_get (v : JValue) (k : str) (default : JValue) : Result JValue :=
  match v with
  | JObj d =>
      match dict_get d k with
      | Some x => Ok x
      | None => Ok default
      end
  | _ => Raise AttributeError
  end.

(** What a [for] sees in [v]: the items of a list, the keys of a dict, the
    characters of a text; nothing else can be iterated. *)
Definition py_iter (v : JValue) : Result (list JValue) :=
  match v with
  | JArr l => Ok l
  | JObj d => Ok (List.map (fun kv => JStr (fst kv)) d)
  | JStr s => Ok (List.map (fun c => JStr [c]) s)
  | _ => Raise TypeError
  end.

(** [model.get("id") == model_name]. *)
Definition has_id (model_name : str) (model : JValue) : Result bool :=
  match py_get model (lit "id") JNull with
  | Ok (JStr s) => Ok (str_eqb s model_name)
  | Ok _ => Ok false
  | Raise e => Raise e
  end.

(** [any(model.get("id") == model_name for model in models)]: it stops at
    the first model that has the id. *)
Fixpoint any_has_id (model_name : str) (models : list JValue) : Result bool :=
  match models with
  | [] => Ok false
  | model :: models' =>
      match has_id model_name model with
      | Raise e => Raise e
      | Ok true => Ok true
      | Ok false => any_has_id model_name models'
      end
  end.

(** [check_docker_model_runner()], given what the request comes to. *)
Definition check_docker_model_runner (get : str -> ModelsOutcome)
    : Result bool :=
  let config := default_config in
  let attempt :=
    (* the body of the try *)
    match get (model_url config ++ lit "/models") with
    | Unreachable e => Raise (Exception e)
    | Status code body =>
        if (code =? 200)%Z then
          bind body (fun j =>
          bind (py_get j (lit "data") (JArr [])) (fun models =>
          bind (py_iter models) (fun items =>
          any_has_id (model_name config) items)))
        else Ok false
    end in
  match attempt with
  | Ok b => Ok b
  | Raise _ => (* except Exception *) Ok false
  end.

End Availability.

(** ** [advanced_agent.py]: tool descriptions and the research crew *)
Module Crew.

Import AdvancedAgent.

(** [MCPToolManager.get_tool_description]. *)
Definition get_tool_description (self : MCPToolManager) (tool_name : str)
    : Result JValue :=
  bind (py_get (available_tools self) tool_name (JObj [])) (fun descriptor =>
  py_get descriptor (lit "description")
         (JStr (lit "No description available"))).

(** How [execute_agent_task] reads a response: as the final result, as a
    request for a tool with its parameters (None and the empty dict
    standing for an absent key), or not at all, an exception leaving the
    task. *)
Inductive Reading : Type :=
| Final
| ToolRequest (tool_name parameters : JValue)
| Raises (e : Exn).

Definition reading (limits : Json.Limits) (response : JValue) : Reading :=
  match response with
  | JStr text =>
      if startswith (lit "{") (strip text) && contains (lit "action") text
      then
        match Json.loads limits text with
        | Raise JSONDecodeError => Final
        | Raise e => Raises e
        | Ok (JObj d) =>
            match dict_get d (lit "action") with
            | Some action =>
                if is_use_tool action then
                  ToolRequest
                    match dict_get d (lit "tool") with
                    | Some t => t
                    | None => JNull
                    end
                    match dict_get d (lit "parameters") with
                    | Some p => p
                    | None => JObj []
                    end
                else Final
            | None => Final
            end
        | Ok _ => Raises AttributeError
        end
      else Final
  | _ => Raises AttributeError
  end.

(** A discovery that leaves the tools empty: the request raised, the
    status is not 200, or the body could not be decoded. *)
Definition discovery_failed (o : DiscoveryOutcome) : bool :=
  match o with
  | Unreachable _ => true
  | Status code body =>
      negb (code =? 200)%Z
      || match body with
         | Raise _ => true
         | Ok _ => false
         end
  end.

(** The kinds of events, to count them. *)
Definition is_completion_request (e : Event) : bool :=
  match e with
  | PostCompletion _ _ => true
  | _ => false
  end.

Definition is_tool_request (e : Event) : bool :=
  match e with
  | PostCall _ _ _ _ => true
  | _ => false
  end.

Definition is_clock_reading (e : Event) : bool :=
  match e with
  | Now _ => true
  | _ => false
  end.

Definition count (f : Event -> bool) (evs : list Event) : nat :=
  List.length (filter f evs).

Definition completion_messages (e : Event) : list Message :=
  match e with
  | PostCompletion p _ => p_messages p
  | _ => []
  end.

Definition researcher : CrewAgent :=
  new_agent (lit "Senior Research Analyst")
    (lit "Conduct thorough research on given topics using available tools")
    (lit "You are an experienced researcher with access to web search and data analysis tools.")
    (Some [lit "web_search"; lit "duckduckgo"; lit "wikipedia"]).

Definition analyst : CrewAgent :=
  new_agent (lit "Data Analyst")
    (lit "Analyze and synthesize research findings into insights")
    (lit "You specialize in analyzing complex information and extracting key insights.")
    (Some [lit "data_analysis"; lit "statistics"]).

Definition writer : CrewAgent :=
  new_agent (lit "Technical Writer")
    (lit "Create clear, comprehensive reports from research and analysis")
    (lit "You excel at translating complex research into accessible, well-structured content.")
    (Some [lit "document_generation"]).

(** The three agent objects [create_research_crew] makes, at the references
    0, 1 and 2. *)
Definition crew_objects : loc -> CrewAgent :=
  fun l =>
    match l with
    | 0%nat => researcher
    | 1%nat => analyst
    | _ => writer
    end.

(** [create_research_crew()]. *)
Definition create_research_crew
    (gateway_tools : list Event -> str -> DiscoveryOutcome)
    (log : list Event) : Result State :=
  match new_system gateway_tools None crew_objects log with
  | (Ok crew, _) =>
      Ok (add_agent (lit "writer") 2%nat
            (add_agent (lit "analyst") 1%nat
               (add_agent (lit "researcher") 0%nat crew)))
  | (Raise e, _) => Raise e
  end.

(** [input(...).strip() or "AI agent development trends"]. *)
Definition research_topic (typed : str) : str :=
  match strip typed with
  | [] => lit "AI agent development trends"
  | c :: t => c :: t
  end.

(** The workflow [main] builds for a topic. *)
Definition research_workflow (research_topic : str) : list Step :=
  [{| agent := lit "researcher";
      task := lit "Research the latest developments in " ++ research_topic
              ++ lit ". Find key trends, technologies, and industry insights."
   |};
   {| agent := lit "analyst";
      task := lit "Analyze the research findings about " ++ research_topic
              ++ lit ". Identify patterns, opportunities, and potential challenges."
   |};
   {| agent := lit "writer";
      task := lit "Create a comprehensive report on " ++ research_topic
              ++ lit " based on the research and analysis. Include executive summary, key findings, and recommendations."
   |}].

End Crew.

(** ** Vocabulary for the statements about the conversational agent *)
Module Conversation.

Import SimpleAgent.

(** The history entries of whole exchanges: for each pair, the user entry
    and the assistant entry that answers it. *)
Fixpoint exchanges (pairs : list (str * JValue)) : list Message :=
  match pairs with
  | [] => []
  | (u, a) :: pairs' =>
      {| role := lit "user"; content := JStr u |}
      :: {| role := lit "assistant"; content := a |}
      :: exchanges pairs'
  end.

(** The history holds whole exchanges only, at most five. *)
Definition whole_exchanges (self : GPTOSSAgent) : Prop :=
  exists pairs,
    conversation_history self = exchanges pairs /\
    (List.length pairs <= 5)%nat.

(** The calls of a run that send a request. *)
Definition sends_request (c : Call) : bool :=
  match c with
  | CallReset => false
  | _ => true
  end.

Definition messages_of (e : Event) : list Message :=
  match e with
  | Post p _ => p_messages p
  end.

End Conversation.

(** ** More scripted environments *)
Module Samples.

Import Demo.

(** A body of the completion endpoint with one choice. *)
Definition greeting_body : JValue :=
  JObj [(lit "choices",
         JArr [JObj [(lit "message",
                      JObj [(lit "role", JStr (lit "assistant"));
                            (lit "content", JStr (lit "Hi there"))])]])].

Definition endpoint_greets
    : list SimpleAgent.Event -> SimpleAgent.Payload -> SimpleAgent.HttpOutcome :=
  fun _ _ => SimpleAgent.Body greeting_body.

(** An endpoint that answers with an empty dict. *)
Definition endpoint_empty_body
    : list SimpleAgent.Event -> SimpleAgent.Payload -> SimpleAgent.HttpOutcome :=
  fun _ _ => SimpleAgent.Body (JObj []).

(** A model listing that holds the configured model after another one. *)
Definition models_listed : str -> Availability.ModelsOutcome :=
  fun _ =>
    Availability.Status 200
      (Ok (JObj [(lit "object", JStr (lit "list"));
                 (lit "data",
                  JArr [JObj [(lit "id", JStr (lit "ai/smollm2"))];
                        JObj [(lit "id", JStr (lit "ai/gpt-oss"))]])])).

(** The crew of [Demo] with the researcher added once more, as lead. *)
Definition crew_with_lead : AdvancedAgent.State :=
  AdvancedAgent.add_agent (lit "lead") 0%nat crew.

(** An endpoint whose body holds no text: the content is null. *)
Definition completes_null
    : list AdvancedAgent.Event -> AdvancedAgent.Payload ->
      AdvancedAgent.CompletionOutcome :=
  fun _ _ => AdvancedAgent.Completed JNull.

End Samples.

(** * Facts *)

Local Open Scope nat_scope.

(** ** Text and lists *)

Lemma str_eqb_eq a b : str_eqb a b = true <-> a = b.
Proof.
  unfold str_eqb. destruct (list_eq_dec N.eq_dec a b); split; congruence.
Qed.

Lemma str_eqb_refl a : str_eqb a a = true.
Proof. now apply str_eqb_eq. Qed.

Lemma str_eqb_neq a b : str_eqb a b = false <-> a <> b.
Proof.
  unfold str_eqb. destruct (list_eq_dec N.eq_dec a b); split; congruence.
Qed.

Lemma last_n_length {A} n (l : list A) :
  List.length (last_n n l) = Nat.min n (List.length l).
Proof. unfold last_n. rewrite length_skipn. lia. Qed.

Lemma last_n_all {A} n (l : list A) :
  List.length l <= n -> last_n n l = l.
Proof.
  intros H. unfold last_n. replace (List.length l - n) with 0 by lia.
  reflexivity.
Qed.

Lemma firstn_of_prefix {A} (a b : list A) n :
  List.length a = n \/ (b = [] /\ List.length a <= n) ->
  firstn n (a ++ b) = a.
Proof.
  intros [<- | [-> H]].
  - rewrite firstn_app, Nat.sub_diag, firstn_all. cbn. apply app_nil_r.
  - rewrite app_nil_r. now apply firstn_all2.
Qed.

Lemma last_n_suffix {A} n (l : list A) :
  exists dropped, l = dropped ++ last_n n l.
Proof.
  exists (firstn (List.length l - n) l). unfold last_n.
  now rewrite firstn_skipn.
Qed.

(** ** Trimming and the JSON decoder *)

(** Boolean tests on code points, as arithmetic facts. *)
Ltac to_arith :=
  repeat rewrite ?orb_true_iff, ?andb_true_iff, ?orb_false_iff,
    ?andb_false_iff, ?N.eqb_eq, ?N.eqb_neq, ?N.leb_le, ?N.leb_gt,
    ?N.ltb_lt, ?N.ltb_ge in *.

Lemma json_ws_isspace c : Json.is_ws c = true -> isspace c = true.
Proof. unfold Json.is_ws, isspace. to_arith. lia. Qed.

Lemma lstrip_skip_ws s : lstrip (Json.skip_ws s) = lstrip s.
Proof.
  induction s as [ | c s IH ]; [ reflexivity | ]. cbn.
  destruct (Json.is_ws c) eqn:W.
  - now rewrite (json_ws_isspace c W).
  - reflexivity.
Qed.

Lemma lstrip_snoc_keep a c :
  isspace c = false -> exists a', lstrip (a ++ [c]) = a' ++ [c].
Proof.
  intros H. induction a as [ | x a [a' IH] ]; cbn.
  - rewrite H. now exists [].
  - destruct (isspace x); [ now exists a' | now exists (x :: a) ].
Qed.

Lemma lstrip_head c t s : lstrip s = c :: t -> isspace c = false.
Proof.
  induction s as [ | x s IH ]; cbn; [ discriminate | ].
  destruct (isspace x) eqn:E; [ exact IH | ].
  intros [= <- <-]. exact E.
Qed.

(** The first character of [strip s] is the first of [lstrip s]. *)
Lemma strip_head s :
  match lstrip s with
  | [] => strip s = []
  | c :: _ => exists t, strip s = c :: t
  end.
Proof.
  unfold strip, rstrip. destruct (lstrip s) as [ | c t ] eqn:E;
    [ reflexivity | ].
  pose proof (lstrip_head _ E) as Hc. cbn [rev].
  destruct (@lstrip_snoc_keep (rev t) c Hc) as [a' ->].
  rewrite rev_app_distr. cbn. now exists (rev a').
Qed.

Lemma startswith_brace_lstrip s :
  startswith (lit "{") (strip s) = true -> exists t, lstrip s = 123%N :: t.
Proof.
  pose proof (strip_head s) as H. destruct (lstrip s) as [ | c t ].
  - rewrite H. discriminate.
  - destruct H as [u ->]. change (lit "{") with [123%N]. cbn [startswith].
    rewrite andb_true_r. intros E%N.eqb_eq. subst c. now exists t.
Qed.

Lemma parse_members_obj lim fuel : forall depth s acc v rest,
  Json.parse_members lim fuel depth s acc = Json.POk v rest ->
  exists d, v = JObj d.
Proof.
  induction fuel as [ | f IH ]; intros depth s acc v rest; cbn;
    [ discriminate | ].
  destruct (Json.scanstring s) as [[key r1] | ]; [ | discriminate ].
  destruct (Json.skip_ws r1) as [ | c r2 ]; [ discriminate | ].
  destruct (N.eqb c 58); [ | discriminate ].
  destruct (Json.scan_once lim f depth (Json.skip_ws r2)) as [x r3 | | e | ];
    [ | discriminate | discriminate | discriminate ].
  destruct (Json.skip_ws r3) as [ | d r4 ]; [ discriminate | ].
  destruct (N.eqb d 125); [ intros [= <- <-]; eauto | ].
  destruct (N.eqb d 44); [ | discriminate ].
  destruct (Json.skip_ws r4) as [ | q r5 ]; [ discriminate | ].
  destruct (N.eqb q 34); [ apply IH | discriminate ].
Qed.

Lemma keyword_head k0 k c r rest :
  Json.keyword (k0 :: k) (c :: r) = Some rest -> c = k0.
Proof.
  unfold Json.keyword. cbn. destruct (N.eqb_spec k0 c); [ easy | discriminate ].
Qed.

Lemma match_int_head c r lex rest :
  Json.match_int (c :: r) = Some (lex, rest) ->
  c = 45%N \/ Json.is_digit c = true.
Proof.
  unfold Json.match_int. destruct (N.eqb_spec c 45); [ now left | ].
  destruct (N.eqb_spec c 48); [ subst; now right | ].
  destruct (Json.is_digit c); [ now right | discriminate ].
Qed.

Lemma digit_not_space c : Json.is_digit c = true -> isspace c = false.
Proof. unfold Json.is_digit, isspace. to_arith. lia. Qed.

(** A value that is not a string, an object or an array starts with a
    character that [strip] keeps. *)
Lemma scan_atom_head lim c r v rest :
  Json.scan_atom lim (c :: r) = Json.POk v rest ->
  isspace c = false /\ c <> 123%N.
Proof.
  unfold Json.scan_atom.
  destruct (Json.keyword (lit "null") (c :: r)) eqn:K1.
  { apply keyword_head in K1. subst. now split. }
  destruct (Json.keyword (lit "true") (c :: r)) eqn:K2.
  { apply keyword_head in K2. subst. now split. }
  destruct (Json.keyword (lit "false") (c :: r)) eqn:K3.
  { apply keyword_head in K3. subst. now split. }
  destruct (Json.match_number (c :: r)) as [[lex r'] | ] eqn:K4.
  { unfold Json.match_number in K4.
    destruct (Json.match_int (c :: r)) as [[i r0] | ] eqn:K; [ | discriminate ].
    apply match_int_head in K. destruct K as [-> | K]; [ now split | ].
    split; [ now apply digit_not_space | ].
    intros ->. discriminate. }
  destruct (Json.keyword (lit "NaN") (c :: r)) eqn:K5.
  { apply keyword_head in K5. subst. now split. }
  destruct (Json.keyword (lit "Infinity") (c :: r)) eqn:K6.
  { apply keyword_head in K6. subst. now split. }
  destruct (Json.keyword (lit "-Infinity") (c :: r)) eqn:K7.
  { apply keyword_head in K7. subst. now split. }
  discriminate.
Qed.

(** What [scan_once] decodes from a text is an object, or the text starts
    with a character other than a brace that [strip] keeps. *)
Lemma scan_once_head lim fuel depth c r v rest :
  Json.scan_once lim fuel depth (c :: r) = Json.POk v rest ->
  (exists d, v = JObj d) \/ (isspace c = false /\ c <> 123%N).
Proof.
  destruct fuel as [ | f ]; cbn [Json.scan_once]; [ discriminate | ].
  destruct (N.eqb_spec c 34); [ subst; right; now split | ].
  destruct (N.eqb_spec c 123).
  { destruct (depth <? Json.recursion_limit lim); [ | discriminate ].
    destruct (Json.skip_ws r) as [ | d r1 ]; [ discriminate | ].
    destruct (N.eqb d 125); [ intros [= <- <-]; left; eauto | ].
    destruct (N.eqb d 34); [ | discriminate ].
    intros H. left. eapply parse_members_obj, H. }
  destruct (N.eqb_spec c 91); [ subst; right; now split | ].
  intros H. right. eapply scan_atom_head, H.
Qed.

(** Whenever the trimmed text starts with a brace and [json.loads] returns,
    it returns a dict. *)
Lemma loads_brace_is_object lim s v :
  startswith (lit "{") (strip s) = true ->
  Json.loads lim s = Ok v -> exists d, v = JObj d.
Proof.
  intros B L. apply startswith_brace_lstrip in B. destruct B as [t B].
  unfold Json.loads in L.
  destruct (startswith [65279%N] s); [ discriminate | ].
  rewrite <- lstrip_skip_ws in B.
  destruct (Json.skip_ws s) as [ | c r ] eqn:W; [ discriminate | ].
  destruct (Json.scan_once _ _ _ (c :: r)) as [x rest | | e | ] eqn:P;
    [ | discriminate | discriminate | discriminate ].
  assert (x = v) as ->.
  { destruct (Json.skip_ws rest); [ congruence | discriminate ]. }
  apply scan_once_head in P. destruct P as [P | [Hs Hc]]; [ exact P | ].
  cbn in B. rewrite Hs in B. congruence.
Qed.

Lemma startswith_iff p : forall s,
  startswith p s = true <-> exists b, s = p ++ b.
Proof.
  induction p as [ | a p IH ]; intros s; cbn.
  - split; [ intros _; now exists s | reflexivity ].
  - destruct s as [ | c s ].
    + split; [ discriminate | intros [b [=]] ].
    + rewrite andb_true_iff, N.eqb_eq, IH. split.
      * intros [-> [b ->]]. now exists b.
      * intros [b [= -> ->]]. split; [ reflexivity | now exists b ].
Qed.

Lemma contains_iff sub : forall s,
  contains sub s = true <-> exists a b, s = a ++ sub ++ b.
Proof.
  induction s as [ | c s IH ]; cbn [contains]; rewrite orb_true_iff,
    startswith_iff.
  - split.
    + intros [[b ->] | [=]]. now exists [], b.
    + intros [a [b E]]. left. destruct a; [ now exists b | discriminate ].
  - rewrite IH. split.
    + intros [[b ->] | [a [b ->]]]; [ now exists [], b | now exists (c :: a), b ].
    + intros [[ | x a] [b E]].
      * left. now exists b.
      * right. injection E as -> ->. now exists a, b.
Qed.

Lemma contains_rev sub s : contains (rev sub) (rev s) = contains sub s.
Proof.
  apply eq_true_iff_eq. rewrite !contains_iff. split.
  - intros [a [b E]]. exists (rev b), (rev a).
    apply (f_equal (@rev N)) in E.
    rewrite rev_involutive, !rev_app_distr, rev_involutive in E.
    now rewrite E, app_assoc.
  - intros [a [b ->]]. exists (rev b), (rev a).
    now rewrite !rev_app_distr, app_assoc.
Qed.

(** Trimming whitespace on the left does not change whether a text that
    starts with a character other than whitespace occurs. *)
Lemma contains_lstrip x sub s :
  isspace x = false -> contains (x :: sub) (lstrip s) = contains (x :: sub) s.
Proof.
  intros Hx. induction s as [ | c s IH ]; [ reflexivity | ].
  cbn [lstrip]. destruct (isspace c) eqn:Hc; [ | reflexivity ].
  rewrite IH. cbn [contains startswith].
  destruct (N.eqb_spec x c); [ congruence | reflexivity ].
Qed.

Lemma contains_rstrip x sub s :
  isspace x = false ->
  contains (sub ++ [x]) (rstrip s) = contains (sub ++ [x]) s.
Proof.
  intros Hx. unfold rstrip.
  rewrite <- (contains_rev (sub ++ [x]) (rev _)), rev_involutive.
  rewrite rev_app_distr. cbn [rev app].
  rewrite contains_lstrip by exact Hx.
  rewrite <- (contains_rev (sub ++ [x]) s), rev_app_distr. reflexivity.
Qed.

(** [strip] keeps every occurrence of the word action. *)
Lemma contains_action_strip s :
  contains (lit "action") (strip s) = contains (lit "action") s.
Proof.
  unfold strip.
  change (lit "action") with (lit "actio" ++ [110%N]) at 1.
  rewrite contains_rstrip by reflexivity.
  change (lit "actio" ++ [110%N]) with (97%N :: lit "ction").
  now rewrite contains_lstrip.
Qed.

(** *** The decoder never runs out of fuel *)

Lemma skip_ws_length s : List.length (Json.skip_ws s) <= List.length s.
Proof.
  induction s as [ | c s IH ]; cbn; [ lia | ].
  destruct (Json.is_ws c); cbn; lia.
Qed.

Ltac break_match H :=
  match type of H with
  | context [match ?x with _ => _ end] => destruct x eqn:?
  end; try discriminate.

Lemma scanstring_consumes n : forall s x rest,
  List.length s <= n ->
  Json.scanstring s = Some (x, rest) -> List.length rest < List.length s.
Proof.
  induction n as [ | n IH ]; intros [ | c r ] x rest Hn H;
    cbn [Json.scanstring] in H; try discriminate; cbn [List.length] in Hn;
    [ lia | ].
  repeat break_match H; subst; injection H as <- <-;
    cbn [List.length] in *; try lia;
    match goal with
    | E : Json.scanstring _ = Some _ |- _ =>
        apply IH in E; cbn [List.length] in *; lia
    end.
Qed.

Lemma keyword_consumes k0 k s r :
  Json.keyword (k0 :: k) s = Some r -> List.length r < List.length s.
Proof.
  unfold Json.keyword. destruct (startswith (k0 :: k) s) eqn:E;
    [ | discriminate ].
  apply startswith_iff in E. destruct E as [b ->]. intros [= <-].
  rewrite skipn_app, skipn_all, Nat.sub_diag. cbn [skipn app List.length].
  rewrite length_app. lia.
Qed.

Lemma span_digits_length s :
  List.length (snd (Json.span_digits s)) <= List.length s.
Proof.
  induction s as [ | c s IH ]; cbn; [ lia | ].
  destruct (Json.is_digit c); [ | cbn; lia ].
  destruct (Json.span_digits s). cbn in *. lia.
Qed.

Lemma match_int_consumes s lex r :
  Json.match_int s = Some (lex, r) -> List.length r < List.length s.
Proof.
  assert (D : forall sign s1,
            match s1 with
            | c :: t =>
                if N.eqb c 48 then Some (sign ++ [48%N], t)
                else if Json.is_digit c then
                  let (d, r') := Json.span_digits t in
                  Some (sign ++ c :: d, r')
                else None
            | [] => None
            end = Some (lex, r) -> List.length r < List.length s1).
  { intros sign [ | c t ]; [ discriminate | ].
    destruct (N.eqb c 48); [ intros [= _ <-]; cbn; lia | ].
    destruct (Json.is_digit c); [ | discriminate ].
    pose proof (span_digits_length t) as L.
    destruct (Json.span_digits t) as [d r']. intros [= _ <-]. cbn in *. lia. }
  unfold Json.match_int. destruct s as [ | c t ]; [ discriminate | ].
  destruct (N.eqb c 45).
  - intros H. apply (D [45%N] t) in H. cbn. lia.
  - apply (D [] (c :: t)).
Qed.

Lemma match_frac_length s :
  List.length (snd (Json.match_frac s)) <= List.length s.
Proof.
  unfold Json.match_frac. destruct s as [ | c r ]; [ cbn; lia | ].
  destruct (N.eqb c 46); [ | cbn; lia ].
  pose proof (span_digits_length r) as L.
  destruct (Json.span_digits r) as [[ | d ds] r']; cbn in *; lia.
Qed.

Lemma match_exp_length s :
  List.length (snd (Json.match_exp s)) <= List.length s.
Proof.
  unfold Json.match_exp. destruct s as [ | c r ]; [ cbn; lia | ].
  destruct (_ || _); [ | cbn; lia ].
  destruct r as [ | g r' ].
  - cbn. lia.
  - destruct (_ || _).
    + pose proof (span_digits_length r') as L.
      destruct (Json.span_digits r') as [[ | d ds] r'']; cbn in *; lia.
    + pose proof (span_digits_length (g :: r')) as L.
      destruct (Json.span_digits (g :: r')) as [[ | d ds] r'']; cbn in *; lia.
Qed.

Lemma match_number_consumes s lex r :
  Json.match_number s = Some (lex, r) -> List.length r < List.length s.
Proof.
  unfold Json.match_number.
  destruct (Json.match_int s) as [[i r0] | ] eqn:E; [ | discriminate ].
  apply match_int_consumes in E.
  pose proof (match_frac_length r0) as F.
  destruct (Json.match_frac r0) as [f r1].
  pose proof (match_exp_length r1) as X.
  destruct (Json.match_exp r1) as [e r2].
  intros [= <- <-]. cbn in *. lia.
Qed.

Lemma scan_atom_consumes lim s v rest :
  Json.scan_atom lim s = Json.POk v rest -> List.length rest < List.length s.
Proof.
  unfold Json.scan_atom. intros H.
  assert (K : forall k r, Json.keyword (lit k) s = Some r ->
                          lit k <> [] -> List.length r < List.length s).
  { intros k r E. destruct (lit k); [ congruence | ].
    intros _. eapply keyword_consumes, E. }
  repeat break_match H; subst; injection H as <- <-;
    first [ eapply K; [ eassumption | discriminate ]
          | eapply match_number_consumes; eassumption ].
Qed.

(** A decoded value has used at least one character. *)
Lemma scan_consumes lim fuel :
  (forall depth s v rest,
     Json.scan_once lim fuel depth s = Json.POk v rest ->
     List.length rest < List.length s) /\
  (forall depth s acc v rest,
     Json.parse_members lim fuel depth s acc = Json.POk v rest ->
     List.length rest < List.length s) /\
  (forall depth s acc v rest,
     Json.parse_items lim fuel depth s acc = Json.POk v rest ->
     List.length rest < List.length s).
Proof.
  induction fuel as [ | f (IH1 & IH2 & IH3) ];
    [ repeat split; intros; discriminate | ].
  repeat split.
  - intros depth [ | c r ] v rest H; cbn [Json.scan_once] in H;
      try discriminate.
    destruct (N.eqb c 34).
    { destruct (Json.scanstring r) as [[x r'] | ] eqn:E; [ | discriminate ].
      injection H as <- <-. apply scanstring_consumes with (n := List.length r)
        in E; cbn; lia. }
    destruct (N.eqb c 123).
    { destruct (depth <? Json.recursion_limit lim); [ | discriminate ].
      pose proof (skip_ws_length r) as W.
      destruct (Json.skip_ws r) as [ | d r1 ]; [ discriminate | ].
      destruct (N.eqb d 125); [ injection H as <- <-; cbn in *; lia | ].
      destruct (N.eqb d 34); [ | discriminate ].
      apply IH2 in H. cbn in *. lia. }
    destruct (N.eqb c 91).
    { destruct (depth <? Json.recursion_limit lim); [ | discriminate ].
      pose proof (skip_ws_length r) as W.
      destruct (Json.skip_ws r) as [ | d r1 ]; [ discriminate | ].
      destruct (N.eqb d 93); [ injection H as <- <-; cbn in *; lia | ].
      apply IH3 in H. cbn in *. lia. }
    now apply scan_atom_consumes in H.
  - intros depth s acc v rest H. cbn [Json.parse_members] in H.
    destruct (Json.scanstring s) as [[key r1] | ] eqn:E; [ | discriminate ].
    apply scanstring_consumes with (n := List.length s) in E; [ | lia ].
    pose proof (skip_ws_length r1) as W1.
    destruct (Json.skip_ws r1) as [ | c r2 ]; [ discriminate | ].
    destruct (N.eqb c 58); [ | discriminate ].
    pose proof (skip_ws_length r2) as W2.
    destruct (Json.scan_once lim f depth (Json.skip_ws r2))
      as [x r3 | | e | ] eqn:P; try discriminate.
    apply IH1 in P. pose proof (skip_ws_length r3) as W3.
    destruct (Json.skip_ws r3) as [ | d r4 ]; [ discriminate | ].
    destruct (N.eqb d 125); [ injection H as <- <-; cbn in *; lia | ].
    destruct (N.eqb d 44); [ | discriminate ].
    pose proof (skip_ws_length r4) as W4.
    destruct (Json.skip_ws r4) as [ | q r5 ]; [ discriminate | ].
    destruct (N.eqb q 34); [ | discriminate ].
    apply IH2 in H. cbn in *. lia.
  - intros depth s acc v rest H. cbn [Json.parse_items] in H.
    destruct (Json.scan_once lim f depth s) as [x r1 | | e | ] eqn:P;
      try discriminate.
    apply IH1 in P. pose proof (skip_ws_length r1) as W1.
    destruct (Json.skip_ws r1) as [ | d r2 ]; [ discriminate | ].
    destruct (N.eqb d 93); [ injection H as <- <-; cbn in *; lia | ].
    destruct (N.eqb d 44); [ | discriminate ].
    pose proof (skip_ws_length r2) as W2.
    apply IH3 in H. cbn in *. lia.
Qed.

(** More fuel than twice the length of the text is enough. *)
Lemma scan_fuel lim fuel :
  (forall depth s, 2 * List.length s < fuel ->
                   Json.scan_once lim fuel depth s <> Json.PFuel)
  /\ (forall depth s acc, 2 * List.length s < fuel ->
                          Json.parse_members lim fuel depth s acc
                          <> Json.PFuel)
  /\ (forall depth s acc, 2 * List.length s + 1 < fuel ->
                          Json.parse_items lim fuel depth s acc
                          <> Json.PFuel).
Proof.
  induction fuel as [ | f (IH1 & IH2 & IH3) ];
    [ repeat split; intros; lia | ].
  destruct (scan_consumes lim f) as (C1 & C2 & C3).
  repeat split.
  - intros depth [ | c r ] Hf; cbn [Json.scan_once]; [ discriminate | ].
    cbn [List.length] in Hf.
    destruct (N.eqb c 34).
    { destruct (Json.scanstring r) as [[x r'] | ]; discriminate. }
    destruct (N.eqb c 123).
    { destruct (depth <? Json.recursion_limit lim); [ | discriminate ].
      pose proof (skip_ws_length r) as W.
      destruct (Json.skip_ws r) as [ | d r1 ]; [ discriminate | ].
      destruct (N.eqb d 125); [ discriminate | ].
      destruct (N.eqb d 34); [ | discriminate ].
      apply IH2. cbn in *. lia. }
    destruct (N.eqb c 91).
    { destruct (depth <? Json.recursion_limit lim); [ | discriminate ].
      pose proof (skip_ws_length r) as W.
      destruct (Json.skip_ws r) as [ | d r1 ]; [ discriminate | ].
      destruct (N.eqb d 93); [ discriminate | ].
      apply IH3. cbn in *. lia. }
    unfold Json.scan_atom.
    repeat match goal with
    | |- context [match ?x with _ => _ end] => destruct x
    end; discriminate.
  - intros depth s acc Hf. cbn [Json.parse_members].
    destruct (Json.scanstring s) as [[key r1] | ] eqn:E; [ | discriminate ].
    apply scanstring_consumes with (n := List.length s) in E; [ | lia ].
    pose proof (skip_ws_length r1) as W1.
    destruct (Json.skip_ws r1) as [ | c r2 ]; [ discriminate | ].
    destruct (N.eqb c 58); [ | discriminate ].
    pose proof (skip_ws_length r2) as W2.
    assert (F : Json.scan_once lim f depth (Json.skip_ws r2) <> Json.PFuel)
      by (apply IH1; cbn in *; lia).
    destruct (Json.scan_once lim f depth (Json.skip_ws r2))
      as [x r3 | | e | ] eqn:P; [ | discriminate | discriminate | congruence ].
    apply C1 in P. pose proof (skip_ws_length r3) as W3.
    destruct (Json.skip_ws r3) as [ | d r4 ]; [ discriminate | ].
    destruct (N.eqb d 125); [ discriminate | ].
    destruct (N.eqb d 44); [ | discriminate ].
    pose proof (skip_ws_length r4) as W4.
    destruct (Json.skip_ws r4) as [ | q r5 ]; [ discriminate | ].
    destruct (N.eqb q 34); [ | discriminate ].
    apply IH2. cbn in *. lia.
  - intros depth s acc Hf. cbn [Json.parse_items].
    assert (F : Json.scan_once lim f depth s <> Json.PFuel)
      by (apply IH1; lia).
    destruct (Json.scan_once lim f depth s) as [x r1 | | e | ] eqn:P;
      [ | discriminate | discriminate | congruence ].
    apply C1 in P. pose proof (skip_ws_length r1) as W1.
    destruct (Json.skip_ws r1) as [ | d r2 ]; [ discriminate | ].
    destruct (N.eqb d 93); [ discriminate | ].
    destruct (N.eqb d 44); [ | discriminate ].
    pose proof (skip_ws_length r2) as W2.
    apply IH3. cbn in *. lia.
Qed.

(** [json.loads] gives the decoder enough fuel: a [JSONDecodeError] is
    always a byte order mark, a syntax error or data after the value. *)
Lemma scan_once_fuel lim s :
  Json.scan_once lim (S (2 * List.length s)) 0 (Json.skip_ws s) <> Json.PFuel.
Proof.
  apply (proj1 (scan_fuel lim _)). pose proof (skip_ws_length s). lia.
Qed.

(** The decoder raises nothing but [RecursionError] and [ValueError]. *)
Lemma scan_raises lim fuel :
  (forall depth s e,
     Json.scan_once lim fuel depth s = Json.PExn e ->
     e = RecursionError \/ e = ValueError) /\
  (forall depth s acc e,
     Json.parse_members lim fuel depth s acc = Json.PExn e ->
     e = RecursionError \/ e = ValueError) /\
  (forall depth s acc e,
     Json.parse_items lim fuel depth s acc = Json.PExn e ->
     e = RecursionError \/ e = ValueError).
Proof.
  induction fuel as [ | f (IH1 & IH2 & IH3) ];
    [ repeat split; intros; discriminate | ].
  repeat split.
  - intros depth [ | c r ] e H; cbn [Json.scan_once] in H; try discriminate.
    destruct (N.eqb c 34).
    { destruct (Json.scanstring r) as [[x r'] | ]; discriminate. }
    destruct (N.eqb c 123).
    { destruct (depth <? Json.recursion_limit lim);
        [ | injection H as <-; now left ].
      destruct (Json.skip_ws r) as [ | d r1 ]; [ discriminate | ].
      destruct (N.eqb d 125); [ discriminate | ].
      destruct (N.eqb d 34); [ | discriminate ].
      eapply IH2, H. }
    destruct (N.eqb c 91).
    { destruct (depth <? Json.recursion_limit lim);
        [ | injection H as <-; now left ].
      destruct (Json.skip_ws r) as [ | d r1 ]; [ discriminate | ].
      destruct (N.eqb d 93); [ discriminate | ].
      eapply IH3, H. }
    unfold Json.scan_atom in H.
    repeat break_match H; injection H as <-; now right.
  - intros depth s acc e H. cbn [Json.parse_members] in H.
    destruct (Json.scanstring s) as [[key r1] | ]; [ | discriminate ].
    destruct (Json.skip_ws r1) as [ | c r2 ]; [ discriminate | ].
    destruct (N.eqb c 58); [ | discriminate ].
    destruct (Json.scan_once lim f depth (Json.skip_ws r2))
      as [x r3 | | e' | ] eqn:P; try discriminate.
    + destruct (Json.skip_ws r3) as [ | d r4 ]; [ discriminate | ].
      destruct (N.eqb d 125); [ discriminate | ].
      destruct (N.eqb d 44); [ | discriminate ].
      destruct (Json.skip_ws r4) as [ | q r5 ]; [ discriminate | ].
      destruct (N.eqb q 34); [ | discriminate ].
      eapply IH2, H.
    + injection H as <-. eapply IH1, P.
  - intros depth s acc e H. cbn [Json.parse_items] in H.
    destruct (Json.scan_once lim f depth s) as [x r1 | | e' | ] eqn:P;
      try discriminate.
    + destruct (Json.skip_ws r1) as [ | d r2 ]; [ discriminate | ].
      destruct (N.eqb d 93); [ discriminate | ].
      destruct (N.eqb d 44); [ | discriminate ].
      eapply IH3, H.
    + injection H as <-. eapply IH1, P.
Qed.

(** What [json.loads] raises is [JSONDecodeError], [RecursionError] or
    [ValueError]. *)
Lemma loads_raises lim s e :
  Json.loads lim s = Raise e ->
  e = JSONDecodeError \/ e = RecursionError \/ e = ValueError.
Proof.
  unfold Json.loads. destruct (startswith [65279%N] s).
  { intros [= <-]. now left. }
  destruct (Json.scan_once _ _ _ _) as [v rest | | e' | ] eqn:P.
  - destruct (Json.skip_ws rest); [ discriminate | ].
    intros [= <-]. now left.
  - intros [= <-]. now left.
  - intros [= <-]. right. eapply (proj1 (scan_raises lim _)), P.
  - intros [= <-]. now left.
Qed.

(** ** The conversational agent *)

Section SimpleAgentFacts.

Import SimpleAgent.

Variable endpoint : list Event -> Payload -> HttpOutcome.

(** What one [chat] does to the agent: on a normal return the history is
    the last ten entries of the old history followed by the exchange, and
    the configuration is as before; on a raise nothing changes. *)
Lemma chat_effect self u sp log :
  match chat endpoint self u sp log with
  | (Ok a, self', _) =>
      config self' = config self /\
      conversation_history self' =
        last_n 10 (conversation_history self
                   ++ [{| role := lit "user"; content := JStr u |};
                       {| role := lit "assistant"; content := a |}])
  | (Raise _, self', _) => self' = self
  end.
Proof.
  unfold chat.
  destruct (_make_request endpoint self (chat_messages self u sp) log)
    as [[response | e] log']; [ | reflexivity ].
  destruct (first_choice_content response) as [a | e]; [ | reflexivity ].
  cbn [config conversation_history]. split; [ reflexivity | ].
  set (h := conversation_history self ++ _ ++ _).
  replace (conversation_history self ++ [_; _]) with h by reflexivity.
  destruct (Nat.ltb_spec 10 (List.length h)); [ reflexivity | ].
  symmetry. now apply last_n_all.
Qed.

Lemma chat_history_bound self u sp log :
  List.length (conversation_history self) <= 10 ->
  List.length (conversation_history (snd (fst (chat endpoint self u sp log))))
  <= 10.
Proof.
  intros H. pose proof (chat_effect self u sp log) as E.
  destruct (chat endpoint self u sp log) as [[[a | e] self'] log']; cbn.
  - destruct E as [_ ->]. rewrite last_n_length. lia.
  - now subst.
Qed.

Lemma think_history_bound self t l log :
  List.length (conversation_history self) <= 10 ->
  List.length (conversation_history (snd (fst (think endpoint self t l log))))
  <= 10.
Proof.
  intros H. unfold think.
  set (self1 := {| config := _; conversation_history := _ |}).
  pose proof (chat_history_bound self1 t (Some think_system_prompt) log H) as B.
  destruct (chat endpoint self1 t (Some think_system_prompt) log)
    as [[r self2] log']. exact B.
Qed.

Lemma run_history_bound cs : forall self log,
  List.length (conversation_history self) <= 10 ->
  List.length (conversation_history (fst (run endpoint cs self log))) <= 10.
Proof.
  induction cs as [ | c cs IH ]; intros self log H; [ exact H | ].
  cbn [run].
  destruct (call endpoint c self log) as [self' log'] eqn:E.
  apply IH. destruct c as [u sp | t l | ]; cbn [call] in E.
  - pose proof (chat_history_bound self u sp log H) as B.
    destruct (chat endpoint self u sp log) as [[r s] g].
    injection E as <- <-. exact B.
  - pose proof (think_history_bound self t l log H) as B.
    destruct (think endpoint self t l log) as [[r s] g].
    injection E as <- <-. exact B.
  - injection E as <- <-. cbn. lia.
Qed.

(** C6. After a [chat] call that returns, the history is the last ten
    entries of the old history followed by the exchange, hence at most ten
    entries long; a [chat] call that raises leaves the agent as it was;
    after any run of [chat], [think] and [reset_conversation] calls on a
    new agent the history has at most ten entries; and
    [reset_conversation] leaves a history of length zero. *)
Theorem conversation_history_capped :
  (forall self u sp log,
     match chat endpoint self u sp log with
     | (Ok a, self', _) =>
         conversation_history self' =
           last_n 10 (conversation_history self
                      ++ [{| role := lit "user"; content := JStr u |};
                          {| role := lit "assistant"; content := a |}])
         /\ List.length (conversation_history self') <= 10
     | (Raise _, self', _) => self' = self
     end)
  /\ (forall cfg cs log,
        List.length
          (conversation_history (fst (run endpoint cs (init cfg) log))) <= 10)
  /\ (forall self,
        List.length (conversation_history (reset_conversation self)) = 0).
Proof.
  split; [ | split ].
  - intros self u sp log. pose proof (chat_effect self u sp log) as E.
    destruct (chat endpoint self u sp log) as [[[a | e] self'] log'];
      [ | exact E ].
    destruct E as [_ E]. split; [ exact E | ].
    rewrite E, last_n_length. lia.
  - intros cfg cs log. apply run_history_bound. cbn. lia.
  - reflexivity.
Qed.

(** C7, as the code has it. When the request fails with a
    [requests.RequestException] (transport failure or HTTP error status),
    [_make_request] raises an [Exception] whose message is the text
    "Error communicating with model: " followed by the cause, and [chat],
    its caller, lets that exception through and leaves the agent
    unchanged. *)
Theorem make_request_failure_raises self messages log msg :
  endpoint log (request_payload self messages) = RequestException msg ->
  _make_request endpoint self messages log =
    (Raise (Exception (lit "Error communicating with model: " ++ msg)),
     log ++ [Post (request_payload self messages) (RequestException msg)])
  /\ (forall u sp,
        messages = chat_messages self u sp ->
        chat endpoint self u sp log =
          (Raise (Exception (lit "Error communicating with model: " ++ msg)),
           self,
           log ++ [Post (request_payload self messages)
                        (RequestException msg)])).
Proof.
  intros H.
  assert (E : _make_request endpoint self messages log =
    (Raise (Exception (lit "Error communicating with model: " ++ msg)),
     log ++ [Post (request_payload self messages) (RequestException msg)])).
  { unfold _make_request. now rewrite H. }
  split; [ exact E | ].
  intros u sp ->. unfold chat. now rewrite E.
Qed.

(** C10. After [think], whether [chat] returned or raised, the
    configuration of the agent is the one from before the call, the
    reasoning level included. *)
Theorem think_restores_config self task level log :
  config (snd (fst (think endpoint self task level log))) = config self.
Proof.
  unfold think.
  set (self1 := {| config := _; conversation_history := _ |}).
  pose proof (chat_effect self1 task (Some think_system_prompt) log) as E.
  destruct (chat endpoint self1 task (Some think_system_prompt) log)
    as [[[a | e] self2] log']; cbn [fst snd config].
  - destruct E as [-> _]. subst self1. cbn. now destruct (config self).
  - subst self2 self1. cbn. now destruct (config self).
Qed.

End SimpleAgentFacts.

(** ** Step keys *)

Lemma digits_of_uint_digits u :
  Forall (fun c => Json.is_digit c = true) (digits_of_uint u).
Proof. induction u; cbn; constructor; auto. Qed.

Lemma digits_of_uint_inj u : forall v,
  digits_of_uint u = digits_of_uint v -> u = v.
Proof.
  induction u; intros v; destruct v; cbn; intros E; try discriminate;
    try reflexivity; injection E as E; f_equal; now apply IHu.
Qed.

Lemma str_of_nat_inj i j : str_of_nat i = str_of_nat j -> i = j.
Proof.
  unfold str_of_nat. intros E%digits_of_uint_inj.
  now apply DecimalNat.Unsigned.to_uint_inj.
Qed.

(** Two texts made of digits, each followed by an underscore, are equal
    only if the digits are. *)
Lemma digits_then_underscore d1 : forall d2 a b,
  Forall (fun c => Json.is_digit c = true) d1 ->
  Forall (fun c => Json.is_digit c = true) d2 ->
  d1 ++ 95%N :: a = d2 ++ 95%N :: b -> d1 = d2 /\ a = b.
Proof.
  induction d1 as [ | x d1 IH ]; intros [ | y d2 ] a b F1 F2 E; cbn in E.
  - injection E as ->. now split.
  - injection E as <- _. inversion F2 as [ | ? ? Hy _ ]. discriminate.
  - injection E as -> _. inversion F1 as [ | ? ? Hx _ ]. discriminate.
  - injection E as -> E. inversion F1; inversion F2; subst.
    destruct (IH d2 a b) as [-> ->]; auto.
Qed.

Lemma step_key_inj i a j b :
  AdvancedAgent.step_key i a = AdvancedAgent.step_key j b -> i = j /\ a = b.
Proof.
  unfold AdvancedAgent.step_key. intros E%app_inv_head.
  change (lit "_") with [95%N] in E. cbn [app] in E.
  apply digits_then_underscore in E; try apply digits_of_uint_digits.
  destruct E as [E ->]. split; [ now apply str_of_nat_inj | reflexivity ].
Qed.

(** ** Dictionaries *)

Lemma dict_set_fresh {V} (d : dict V) k v :
  ~ In k (dict_keys d) -> dict_set d k v = d ++ [(k, v)].
Proof.
  induction d as [ | [k' v'] d IH ]; cbn; intros H; [ reflexivity | ].
  destruct (str_eqb k' k) eqn:E.
  - apply str_eqb_eq in E. tauto.
  - f_equal. apply IH. tauto.
Qed.

(** ** The crew: one task *)

Section AdvancedAgentFacts.

Import AdvancedAgent Crew.

Variable completions : list Event -> Payload -> CompletionOutcome.
Variable gateway_tools : list Event -> str -> DiscoveryOutcome.
Variable gateway_call : list Event -> str -> JValue -> JValue -> GatewayOutcome.
Variable clock : list Event -> str.
Variable py_repr : JValue -> str.
Variable limits : Json.Limits.

Local Abbreviation resolve :=
  (resolve_tool_call completions gateway_call py_repr limits).
Local Abbreviation exec :=
  (execute_agent_task completions gateway_call py_repr limits).
Local Abbreviation loop :=
  (crew_loop completions gateway_call clock py_repr limits).
Local Abbreviation run_workflow :=
  (execute_crew_workflow completions gateway_call clock py_repr limits).
Local Abbreviation steps_run :=
  (runs completions gateway_call clock py_repr limits).
Local Abbreviation tame_env := (tame completions limits).

Lemma append_twice a m1 m2 :
  append_history (append_history a m1) m2 = add_entries a [m1; m2].
Proof.
  unfold append_history, add_entries. cbn. now rewrite <- app_assoc.
Qed.

(** The [try] block, by the way the response is read. *)
Lemma resolve_by_reading messages name response st :
  match reading limits response with
  | Final =>
      resolve messages name response st = (Ok response, st) \/
      resolve messages name response st = (Raise JSONDecodeError, st)
  | ToolRequest tool_name parameters =>
      exists text,
        response = JStr text /\
        resolve messages name response st =
          (Ok (fst (run_tool_call completions gateway_call py_repr messages
                      name text tool_name parameters st)),
           snd (run_tool_call completions gateway_call py_repr messages
                  name text tool_name parameters st))
  | Raises e =>
      resolve messages name response st = (Raise e, st) /\
      e <> JSONDecodeError
  end.
Proof.
  unfold reading, resolve_tool_call.
  destruct response as [ | b | n | text | items | d ];
    try (split; [ reflexivity | discriminate ]).
  destruct (startswith (lit "{") (strip text) && contains (lit "action") text);
    [ | now left ].
  destruct (Json.loads limits text) as [v | e] eqn:L.
  - destruct v as [ | b | n | t | items | d ];
      try (split; [ reflexivity | discriminate ]).
    cbn [py_get].
    destruct (dict_get d (lit "action")) as [action | ];
      [ | cbn [is_use_tool]; now left ].
    destruct (is_use_tool action); [ | now left ].
    exists text. split; [ reflexivity | ].
    destruct (dict_get d (lit "tool")), (dict_get d (lit "parameters"));
      destruct (run_tool_call _ _ _ _ _ _ _ _ _); reflexivity.
  - destruct e; try (split; [ reflexivity | discriminate ]). now right.
Qed.

(** A response is read as raising only in these three ways. *)
Lemma reading_raises response e :
  reading limits response = Raises e ->
  e = AttributeError \/ e = RecursionError \/ e = ValueError.
Proof.
  unfold reading.
  destruct response as [ | b | n | text | items | d ];
    try (intros [= <-]; now left).
  destruct (startswith (lit "{") (strip text) && contains (lit "action") text);
    [ | discriminate ].
  destruct (Json.loads limits text) as [v | e'] eqn:L.
  - destruct v as [ | b | n | t | items | d ];
      try (intros [= <-]; now left).
    destruct (dict_get d (lit "action")) as [action | ]; [ | discriminate ].
    destruct (is_use_tool action); discriminate.
  - apply loads_raises in L.
    destruct L as [-> | [-> | ->]]; [ discriminate | | ];
      intros [= <-]; auto.
Qed.

(** One task on a registered agent, by the way its first response is
    read. *)
Lemma exec_by_reading name task context st l :
  dict_get (agents (self st)) name = Some l ->
  let messages := task_messages (heap st l) task context in
  let payload := llm_payload (self st) messages in
  let o := completions (log st) payload in
  let response := response_value o in
  let st1 := with_log st (PostCompletion payload o) in
  match reading limits response with
  | Final =>
      exec name task context st =
        (Ok response,
         with_heap st1
           (heap_set (heap st) l
              (add_entries (heap st l)
                 (task_entries task context response))))
  | ToolRequest tool_name parameters =>
      exists text,
        response = JStr text /\
        let url := gateway_url (mcp_manager (self st)) ++ lit "/call" in
        let g := gateway_call (log st1) url tool_name parameters in
        let log2 := log st1 ++ [PostCall url tool_name parameters g] in
        let payload2 :=
          llm_payload (self st)
            (continuation py_repr messages text tool_name
               (gateway_result g)) in
        let o2 := completions log2 payload2 in
        exec name task context st =
          (Ok (response_value o2),
           {| self := self st;
              heap := heap_set (heap st) l
                        (add_entries (heap st l)
                           (task_entries task context (response_value o2)));
              log := log2 ++ [PostCompletion payload2 o2] |})
  | Raises e => exec name task context st = (Raise e, st1)
  end.
Proof.
  intros Hl messages payload o response st1.
  pose proof (resolve_by_reading messages name response st1) as R.
  unfold execute_agent_task, _make_llm_request. rewrite Hl.
  fold messages payload o response st1.
  destruct (reading limits response) as [ | tool_name parameters | e ].
  - destruct R as [-> | ->]; rewrite append_twice; reflexivity.
  - destruct R as (text & E & ->). exists text. split; [ exact E | ].
    unfold run_tool_call, call_tool, _make_llm_request.
    cbn [fst snd log self heap with_heap with_log st1].
    rewrite append_twice. reflexivity.
  - destruct R as [-> Hne]. destruct e; try reflexivity. congruence.
Qed.

(** What one task does, whatever the endpoint and the gateway answer: the
    crew is as before and the log only grows; when the task returns, an
    unknown name has given the fixed text with no effect at all, and a
    known name has added the task prompt and the result to the history of
    its agent object and left every other object as it was; when the task
    raises, no object has changed. *)
Lemma exec_effect name task context st :
  exists r st',
    exec name task context st = (r, st') /\
    self st' = self st /\
    (exists evs, log st' = log st ++ evs) /\
    match r with
    | Ok v =>
        match dict_get (agents (self st)) name with
        | None =>
            v = JStr (lit "Agent " ++ name ++ lit " not found") /\ st' = st
        | Some l =>
            forall q,
              heap st' q =
                if Nat.eqb q l
                then add_entries (heap st l) (task_entries task context v)
                else heap st q
        end
    | Raise e =>
        heap st' = heap st /\
        dict_get (agents (self st)) name <> None /\
        (e = AttributeError \/ e = RecursionError \/ e = ValueError)
    end.
Proof.
  destruct (dict_get (agents (self st)) name) as [l | ] eqn:Hl.
  - pose proof (@exec_by_reading name task context st l Hl) as E.
    cbn zeta in E.
    destruct (reading limits _) as [ | tool_name parameters | e ] eqn:R.
    + do 2 eexists. split; [ exact E | ].
      cbn [self log heap with_heap with_log]. split; [ reflexivity | ].
      split; [ eexists; reflexivity | ]. intros q. reflexivity.
    + destruct E as (text & _ & E). do 2 eexists. split; [ exact E | ].
      cbn [self log heap with_log]. split; [ reflexivity | ].
      split; [ | intros q; reflexivity ].
      eexists. rewrite <- !app_assoc. reflexivity.
    + do 2 eexists. split; [ exact E | ].
      cbn [self log heap with_log]. split; [ reflexivity | ].
      split; [ eexists; reflexivity | ].
      split; [ reflexivity | ]. split; [ discriminate | ].
      eapply reading_raises, R.
  - unfold execute_agent_task. rewrite Hl. do 2 eexists.
    split; [ reflexivity | ]. split; [ reflexivity | ].
    split; [ exists []; now rewrite app_nil_r | ]. now split.
Qed.


(** The same, read at the histories. *)
Lemma exec_history name task context st :
  exists r st',
    exec name task context st = (r, st') /\
    self st' = self st /\
    (exists evs, log st' = log st ++ evs) /\
    match r with
    | Ok v =>
        (forall q,
           conversation_history (heap st' q) =
             conversation_history (heap st q)
             ++ match dict_get (agents (self st)) name with
                | Some l =>
                    if Nat.eqb l q then task_entries task context v else []
                | None => []
                end) /\
        match dict_get (agents (self st)) name with
        | None => v = JStr (lit "Agent " ++ name ++ lit " not found")
        | Some _ => True
        end
    | Raise _ => heap st' = heap st
    end.
Proof.
  destruct (exec_effect name task context st) as (r & st' & E & Hs & Hl & H).
  exists r, st'. repeat split; try assumption.
  destruct r as [v | e]; [ | apply H ]. split.
  - intros q. destruct (dict_get (agents (self st)) name) as [l | ].
    + rewrite H, Nat.eqb_sym. destruct (Nat.eqb_spec l q).
      * now subst.
      * now rewrite app_nil_r.
    + destruct H as [_ ->]. now rewrite app_nil_r.
  - destruct (dict_get (agents (self st)) name); [ exact I | apply H ].
Qed.

(** A task whose first response is read as final makes one completion
    request and no other: its result is that response. *)
Lemma exec_single_completion name task context st l :
  dict_get (agents (self st)) name = Some l ->
  let messages := task_messages (heap st l) task context in
  let payload := llm_payload (self st) messages in
  let o := completions (log st) payload in
  reading limits (response_value o) = Final ->
  exists st',
    exec name task context st = (Ok (response_value o), st') /\
    log st' = log st ++ [PostCompletion payload o] /\
    self st' = self st /\
    forall l',
      heap st' l' =
        if Nat.eqb l' l
        then add_entries (heap st l)
               (task_entries task context (response_value o))
        else heap st l'.
Proof.
  intros Hl messages payload o R.
  pose proof (@exec_by_reading name task context st l Hl) as E.
  cbn zeta in E. fold messages payload o in E. rewrite R in E.
  eexists. split; [ exact E | ].
  cbn [log self heap with_heap with_log]. repeat split.
Qed.

Lemma goes_on_reading response :
  goes_on limits response = true ->
  (exists text, response = JStr text) /\
  forall e, reading limits response <> Raises e.
Proof.
  unfold goes_on, reading.
  destruct response as [ | b | n | text | items | d ]; try discriminate.
  intros G. split; [ now exists text | ]. intros e.
  destruct (startswith (lit "{") (strip text)) eqn:B; [ | discriminate ].
  cbn [andb] in *.
  destruct (contains (lit "action") text); [ | discriminate ].
  destruct (Json.loads limits text) as [v | e'] eqn:L.
  - destruct (loads_brace_is_object _ _ B L) as [d ->].
    destruct (dict_get d (lit "action")) as [action | ]; [ | discriminate ].
    destruct (is_use_tool action); discriminate.
  - destruct e'; discriminate.
Qed.

(** With such completions every task returns, and returns a text. *)
Lemma exec_goes_on name task context st :
  tame_env ->
  exists text st', exec name task context st = (Ok (JStr text), st').
Proof.
  intros T.
  destruct (dict_get (agents (self st)) name) as [l | ] eqn:Hl.
  - pose proof (@exec_by_reading name task context st l Hl) as E.
    cbn zeta in E.
    destruct (@goes_on_reading _
                (T (log st)
                   (llm_payload (self st)
                      (task_messages (heap st l) task context))))
      as [[text Ht] Hr].
    destruct (reading limits _) as [ | tool_name parameters | e ].
    + rewrite Ht in E. eauto.
    + destruct E as (text' & _ & E).
      match type of E with
      | _ = (Ok (response_value (completions ?l2 ?p2)), _) =>
          destruct (@goes_on_reading _ (T l2 p2)) as [[text2 Ht2] _]
      end.
      rewrite Ht2 in E at 1. eauto.
    + now destruct (Hr e).
  - unfold execute_agent_task. rewrite Hl. eauto.
Qed.

(** A failed completion is a text the crew goes on with. *)
Lemma error_text_is_final msg :
  startswith (lit "{") (strip (lit "Error: " ++ msg)) = false.
Proof.
  pose proof (strip_head (lit "Error: " ++ msg)) as H.
  change (lit "Error: " ++ msg) with (69%N :: lit "rror: " ++ msg) in *.
  cbn [lstrip] in H. change (isspace 69) with false in H.
  destruct H as [t ->]. reflexivity.
Qed.


(** C4. For a registered agent and a response that is a text, when the
    trimmed text does not start with a brace or does not contain the word
    action, the task makes one completion request and no gateway request,
    and its result is the response itself. *)
Theorem response_without_tool_call_is_final name task context st l response :
  dict_get (agents (self st)) name = Some l ->
  let messages := task_messages (heap st l) task context in
  let payload := llm_payload (self st) messages in
  let o := completions (log st) payload in
  response_value o = JStr response ->
  startswith (lit "{") (strip response) = false \/
  contains (lit "action") (strip response) = false ->
  exists st',
    exec name task context st = (Ok (JStr response), st') /\
    log st' = log st ++ [PostCompletion payload o] /\
    self st' = self st /\
    forall l',
      heap st' l' =
        if Nat.eqb l' l
        then add_entries (heap st l)
               (task_entries task context (JStr response))
        else heap st l'.
Proof.
  intros Hl messages payload o Hr H. rewrite <- Hr.
  apply exec_single_completion; [ exact Hl | ].
  fold messages payload o. rewrite Hr. unfold reading.
  rewrite contains_action_strip in H.
  destruct H as [-> | ->]; [ reflexivity | now rewrite andb_false_r ].
Qed.


(** C1, as the code has it. For a registered agent and a response that is
    a text, when the trimmed text starts with a brace, the text contains
    the word action, and [json.loads] decodes it to a dict whose action is
    the text use_tool, the task makes exactly three requests in this
    order: the first completion request, one gateway request with the tool
    and the parameters of the dict (None and the empty dict when absent),
    and one more completion request.  The result of the task is the
    response to that last request, whatever it is: nothing in it is
    resolved. *)
Theorem tool_call_round_trip name task context st l response d :
  dict_get (agents (self st)) name = Some l ->
  let messages := task_messages (heap st l) task context in
  let payload := llm_payload (self st) messages in
  let o := completions (log st) payload in
  response_value o = JStr response ->
  startswith (lit "{") (strip response) = true ->
  contains (lit "action") response = true ->
  Json.loads limits response = Ok (JObj d) ->
  dict_get d (lit "action") = Some (JStr (lit "use_tool")) ->
  let tool_name :=
    match dict_get d (lit "tool") with Some t => t | None => JNull end in
  let parameters :=
    match dict_get d (lit "parameters") with
    | Some p => p
    | None => JObj []
    end in
  let url := gateway_url (mcp_manager (self st)) ++ lit "/call" in
  let log1 := log st ++ [PostCompletion payload o] in
  let g := gateway_call log1 url tool_name parameters in
  let log2 := log1 ++ [PostCall url tool_name parameters g] in
  let payload2 :=
    llm_payload (self st)
      (continuation py_repr messages response tool_name (gateway_result g)) in
  let o2 := completions log2 payload2 in
  exists st',
    exec name task context st = (Ok (response_value o2), st') /\
    log st' =
      log st ++ [PostCompletion payload o;
                 PostCall url tool_name parameters g;
                 PostCompletion payload2 o2] /\
    self st' = self st /\
    forall l',
      heap st' l' =
        if Nat.eqb l' l
        then add_entries (heap st l)
               (task_entries task context (response_value o2))
        else heap st l'.
Proof.
  intros Hl messages payload o Hr B A L Ha tool_name parameters url
    log1 g log2 payload2 o2.
  pose proof (@exec_by_reading name task context st l Hl) as E.
  cbn zeta in E. fold messages payload o in E. rewrite Hr in E.
  unfold reading in E. rewrite B, A, L, Ha in E.
  cbn [andb is_use_tool] in E. rewrite str_eqb_refl in E.
  destruct E as (text & [= <-] & E).
  cbn [log with_log] in E. fold tool_name parameters url log1 g log2 in E.
  fold payload2 o2 in E.
  eexists. split; [ exact E | ]. cbn [log self heap]. repeat split.
  subst log2 log1. now rewrite <- !app_assoc.
Qed.

(** C8. The constructor of the tool manager returns for every outcome of
    the discovery request.  The tools stay the empty dict when the request
    raises, when the status is not 200 and when the body cannot be decoded;
    with status 200 and a decoded body, the tools are that body. *)
Theorem discovery_never_fatal url log :
  exists m,
    new_manager gateway_tools url log
      = (Ok m, log ++ [GetTools (url ++ lit "/tools")
                         (gateway_tools log (url ++ lit "/tools"))]) /\
    gateway_url m = url /\
    match gateway_tools log (url ++ lit "/tools") with
    | Unreachable _ => available_tools m = JObj []
    | Status code body =>
        if (code =? 200)%Z then
          match body with
          | Raise _ => available_tools m = JObj []
          | Ok j => available_tools m = j
          end
        else available_tools m = JObj []
    end.
Proof.
  unfold new_manager, _discover_tools. cbn [gateway_url].
  destruct (gateway_tools log (url ++ lit "/tools")) as [e | code body].
  - eexists. repeat split.
  - destruct (code =? 200)%Z.
    + destruct body as [j | e].
      * destruct (py_len j); eexists; repeat split.
      * eexists. repeat split.
    + eexists. repeat split.
Qed.

(** ** The crew: a workflow *)

Lemma step_entries_length steps : forall i rs ts,
  List.length rs = List.length steps -> List.length ts = List.length steps ->
  List.length (step_entries i steps rs ts) = List.length steps.
Proof.
  induction steps as [ | s steps IH ]; intros i [ | r rs ] [ | t ts ];
    cbn; try discriminate; auto.
Qed.

Lemma step_entries_results steps : forall i rs ts,
  List.length rs = List.length steps -> List.length ts = List.length steps ->
  List.map (fun kv => result (snd kv)) (step_entries i steps rs ts) = rs.
Proof.
  induction steps as [ | s steps IH ]; intros i [ | r rs ] [ | t ts ];
    cbn; try discriminate; auto.
  intros [=] [=]. f_equal. auto.
Qed.




Lemma step_entries_keys_below steps : forall i rs ts k,
  In k (dict_keys (step_entries i steps rs ts)) ->
  exists j a, j < i + List.length steps /\ k = step_key j a.
Proof.
  induction steps as [ | s steps IH ]; intros i [ | r rs ] [ | t ts ] k;
    cbn; try tauto.
  intros [<- | H].
  - exists i, (agent s). split; [ lia | reflexivity ].
  - apply IH in H. destruct H as (j & a & Hj & ->). exists j, a.
    split; [ lia | reflexivity ].
Qed.


Lemma history_added_length agents l steps : forall context rs,
  List.length rs = List.length steps ->
  List.length (history_added py_repr agents l context steps rs)
  = 2 * List.length (steps_on agents l steps).
Proof.
  induction steps as [ | s steps IH ]; intros context [ | r rs ];
    cbn [List.length]; try discriminate; auto.
  intros [=]. cbn [history_added]. rewrite length_app, IH by assumption.
  unfold steps_on. cbn [filter]. fold (steps_on agents l steps).
  destruct (dict_get agents (agent s)) as [l' | ]; [ | reflexivity ].
  destruct (Nat.eqb l' l); cbn [List.length task_entries]; lia.
Qed.

(** *** Steps that run *)

Lemma runs_length context st steps rs ts st' :
  steps_run context st steps rs ts st' ->
  List.length rs = List.length steps /\ List.length ts = List.length steps.
Proof.
  induction 1 as [ | ? ? ? ? ? ? ? ? ? ? ? ? [IH1 IH2] ]; cbn; auto.
Qed.

Lemma runs_frame context st steps rs ts st' :
  steps_run context st steps rs ts st' ->
  self st' = self st /\ exists evs, log st' = log st ++ evs.
Proof.
  induction 1 as [ context st
                 | context st step steps r st1 rs ts st' E P R [IHs [evs IHl]] ].
  - split; [ reflexivity | ]. exists []. now rewrite app_nil_r.
  - destruct (exec_history (agent step) (task step) context st)
      as (r0 & st0 & E0 & Hs & [evs0 Hl] & _).
    rewrite E in E0. injection E0 as <- <-.
    cbn [self log with_log] in *. split; [ congruence | ].
    exists (evs0 ++ Now (clock (log st1)) :: evs). rewrite IHl, Hl.
    now rewrite <- !app_assoc.
Qed.

(** Each agent object ends with the entries of the steps that ran on it,
    in step order, behind what it had. *)
Lemma runs_history context st steps rs ts st' :
  steps_run context st steps rs ts st' ->
  forall q,
    conversation_history (heap st' q) =
      conversation_history (heap st q)
      ++ history_added py_repr (agents (self st)) q context steps rs.
Proof.
  induction 1 as [ context st
                 | context st step steps r st1 rs ts st' E P R IH ];
    intros q.
  - cbn. now rewrite app_nil_r.
  - destruct (exec_history (agent step) (task step) context st)
      as (r0 & st0 & E0 & Hs & _ & Hh).
    rewrite E in E0. injection E0 as <- <-. destruct Hh as [Hh _].
    rewrite IH. cbn [heap self with_log history_added].
    rewrite Hh, Hs, <- app_assoc. reflexivity.
Qed.


(** The steps run in one way only. *)
Lemma runs_unique context st steps rs ts st' :
  steps_run context st steps rs ts st' ->
  forall rs2 ts2 st2,
    steps_run context st steps rs2 ts2 st2 ->
    rs2 = rs /\ ts2 = ts /\ st2 = st'.
Proof.
  induction 1 as [ context st
                 | context st step steps r st1 rs ts st' E P R IH ];
    intros rs2 ts2 st2 R2; inversion R2; subst.
  - auto.
  - match goal with
    | H : exec _ _ _ _ = (Ok ?r', ?st1') |- _ =>
        rewrite E in H; injection H as <- <-
    end.
    match goal with
    | H : steps_run _ _ steps _ _ _ |- _ =>
        apply IH in H; destruct H as (-> & -> & ->)
    end.
    auto.
Qed.

(** The loop, from step number [i] on, with results whose keys all carry a
    smaller number: when it ends normally, its steps have run, each has
    added its entry behind the results and its line behind the context. *)
Lemma loop_spec steps : forall i results context st results' context' st',
  (forall k, In k (dict_keys results) ->
             exists j a, j < i /\ k = step_key j a) ->
  loop i steps results context st = (Ok (results', context'), st') ->
  exists rs ts,
    steps_run context st steps rs ts st' /\
    results' = results ++ step_entries i steps rs ts /\
    context' = context ++ context_lines py_repr steps rs.
Proof.
  induction steps as [ | s steps IH ];
    intros i results context st results' context' st' Hk.
  - cbn. intros [= <- <- <-]. exists [], []. cbn. rewrite !app_nil_r.
    repeat split. constructor.
  - cbn [crew_loop].
    destruct (exec (agent s) (task s) context st) as [[r | e] st1] eqn:E;
      [ | discriminate ].
    unfold now. rewrite dict_set_fresh.
    2:{ intros H%Hk. destruct H as (j & a & Hj & Ej).
        apply step_key_inj in Ej. lia. }
    destruct (preview r) as [[] | e] eqn:P; [ | discriminate ].
    intros L. apply IH in L.
    + destruct L as (rs & ts & R & -> & ->).
      exists (r :: rs), (clock (log st1) :: ts).
      split; [ econstructor; eassumption | ].
      cbn [step_entries context_lines]. now rewrite <- !app_assoc.
    + intros k. unfold dict_keys. rewrite map_app, in_app_iff. cbn.
      intros [H | [<- | []]].
      * apply Hk in H. destruct H as (j & a & Hj & ->). exists j, a.
        split; [ lia | reflexivity ].
      * exists i, (agent s). split; [ lia | reflexivity ].
Qed.

(** And steps that run are what the loop does. *)
Lemma runs_loop context st steps rs ts st' :
  steps_run context st steps rs ts st' ->
  forall i results,
    (forall k, In k (dict_keys results) ->
               exists j a, j < i /\ k = step_key j a) ->
    loop i steps results context st
      = (Ok (results ++ step_entries i steps rs ts,
             context ++ context_lines py_repr steps rs), st').
Proof.
  induction 1 as [ context st
                 | context st step steps r st1 rs ts st' E P R IH ];
    intros i results Hk.
  - cbn. now rewrite !app_nil_r.
  - cbn [crew_loop]. rewrite E. unfold now. rewrite P.
    rewrite dict_set_fresh.
    2:{ intros H%Hk. destruct H as (j & a & Hj & Ej).
        apply step_key_inj in Ej. lia. }
    rewrite IH.
    + cbn [step_entries context_lines]. now rewrite <- !app_assoc.
    + intros k. unfold dict_keys. rewrite map_app, in_app_iff. cbn.
      intros [H | [<- | []]].
      * apply Hk in H. destruct H as (j & a & Hj & ->). exists j, a.
        split; [ lia | reflexivity ].
      * exists i, (agent step). split; [ lia | reflexivity ].
Qed.

Lemma loop_app a : forall b i results context st,
  loop i (a ++ b) results context st =
    match loop i a results context st with
    | (Ok (results', context'), st') =>
        loop (i + List.length a) b results' context' st'
    | (Raise e, st') => (Raise e, st')
    end.
Proof.
  induction a as [ | s a IH ]; intros b i results context st;
    cbn [crew_loop app List.length].
  - now rewrite Nat.add_0_r.
  - destruct (exec (agent s) (task s) context st) as [[r | e] st1];
      [ | reflexivity ].
    unfold now. destruct (preview r) as [[] | e]; [ | reflexivity ].
    rewrite IH. now rewrite Nat.add_succ_r.
Qed.

(** Whatever the loop comes to, the crew is the same, the log has only
    grown and every history has only grown. *)
Lemma loop_frame steps : forall i results context st,
  let st' := snd (loop i steps results context st) in
  self st' = self st /\
  (exists evs, log st' = log st ++ evs) /\
  forall q, exists added,
    conversation_history (heap st' q)
    = conversation_history (heap st q) ++ added.
Proof.
  induction steps as [ | s steps IH ]; intros i results context st.
  - cbn. split; [ reflexivity | ].
    split; [ exists [] | intros q; exists [] ]; now rewrite app_nil_r.
  - cbn [crew_loop].
    destruct (exec_history (agent s) (task s) context st)
      as (r & st1 & E & Hs & [evs Hl] & H).
    rewrite E. destruct r as [v | e].
    + destruct H as [Hh _]. unfold now.
      set (st2 := with_log st1 (Now (clock (log st1)))).
      assert (F2 : self st2 = self st /\
                   (exists evs2, log st2 = log st ++ evs2) /\
                   forall q, exists added,
                     conversation_history (heap st2 q)
                     = conversation_history (heap st q) ++ added).
      { subst st2. cbn [self log heap with_log].
        split; [ exact Hs | ]. split.
        - exists (evs ++ [Now (clock (log st1))]).
          now rewrite Hl, <- app_assoc.
        - intros q. rewrite Hh. eauto. }
      destruct (preview v) as [[] | e]; [ | exact F2 ].
      match goal with
      | |- context [ loop ?i' steps ?r' ?c' st2 ] =>
          specialize (IH i' r' c' st2)
      end.
      cbn zeta in *. destruct IH as (Is & [evs' Il] & Ih).
      destruct F2 as (Fs & [evs2 Fl] & Fh).
      split; [ congruence | ]. split.
      * exists (evs2 ++ evs'). now rewrite Il, Fl, <- app_assoc.
      * intros q. destruct (Ih q) as [a1 ->]. destruct (Fh q) as [a2 ->].
        exists (a2 ++ a1). now rewrite <- app_assoc.
    + cbn [snd]. split; [ exact Hs | ]. split; [ eauto | ].
      intros q. rewrite H. exists []. now rewrite app_nil_r.
Qed.

(** With completions the crew can go on with, the loop ends normally. *)
Lemma loop_goes_on steps :
  tame_env ->
  forall i results context st,
    exists results' context' st',
      loop i steps results context st = (Ok (results', context'), st').
Proof.
  intros T. induction steps as [ | s steps IH ];
    intros i results context st; cbn [crew_loop].
  - eauto.
  - destruct (exec_goes_on (agent s) (task s) context st T)
      as (text & st1 & ->).
    unfold now. cbn [preview]. apply IH.
Qed.


(** What a workflow that returns has done: its steps have run, its results
    are their entries, and one record is added to the crew. *)
Lemma workflow_spec workflow st results st' :
  run_workflow workflow st = (Ok results, st') ->
  exists rs ts st1,
    steps_run [] st workflow rs ts st1 /\
    results = step_entries 1 workflow rs ts /\
    heap st' = heap st1 /\
    log st' = log st1 ++ [Now (clock (log st1))] /\
    config (self st') = config (self st) /\
    mcp_manager (self st') = mcp_manager (self st) /\
    agents (self st') = agents (self st) /\
    task_results (self st')
    = task_results (self st)
      ++ [{| wr_workflow := workflow; wr_results := results;
             wr_timestamp := clock (log st1) |}].
Proof.
  unfold execute_crew_workflow.
  destruct (loop 1 workflow [] [] st) as [[[results1 context1] | e] st1]
    eqn:L; [ | discriminate ].
  unfold now. cbn [self heap log with_log]. intros [= <- <-].
  apply loop_spec in L; [ | intros k [] ].
  destruct L as (rs & ts & R & -> & _).
  destruct (runs_frame R) as [Hs _].
  exists rs, ts, st1. cbn [self heap log config mcp_manager agents
    task_results app]. rewrite Hs. repeat split. exact R.
Qed.


(** C3. When the loop over the first n steps ends, these steps have run,
    one after the other, and the context is, in step order, the lines of
    these steps, each a line feed, the agent name, the text
    " completed: ", the result of the step as a text and a line feed.  The
    loop over the whole workflow goes on from that state, and when it ends
    the context starts with the context after n steps: later steps only
    append. *)
Theorem context_grows_in_step_order workflow st n results_n context_n st_n :
  loop 1 (firstn n workflow) [] [] st = (Ok (results_n, context_n), st_n) ->
  (exists rs ts,
     steps_run [] st (firstn n workflow) rs ts st_n /\
     List.length rs = List.length (firstn n workflow) /\
     results_n = step_entries 1 (firstn n workflow) rs ts /\
     List.map (fun kv => result (snd kv)) results_n = rs /\
     context_n = context_lines py_repr (firstn n workflow) rs) /\
  loop 1 workflow [] [] st
  = loop (1 + List.length (firstn n workflow)) (skipn n workflow)
      results_n context_n st_n /\
  forall results context st',
    loop 1 workflow [] [] st = (Ok (results, context), st') ->
    results_n = firstn n results /\
    exists rs', 
      List.length rs' = List.length (skipn n workflow) /\
      context = context_n ++ context_lines py_repr (skipn n workflow) rs'.
Proof.
  intros L.
  assert (W : loop 1 workflow [] [] st
              = loop (1 + List.length (firstn n workflow)) (skipn n workflow)
                  results_n context_n st_n).
  { rewrite <- (firstn_skipn n workflow) at 1. now rewrite loop_app, L. }
  apply loop_spec in L; [ | intros k [] ].
  destruct L as (rs & ts & R & -> & ->). cbn [app] in *.
  destruct (runs_length R) as [Lr Lt].
  split; [ | split; [ exact W | ] ].
  { exists rs, ts. repeat split; try assumption.
    now apply step_entries_results. }
  intros results context st' L. rewrite W in L.
  apply loop_spec in L.
  2:{ intros k H%step_entries_keys_below. destruct H as (j & a & Hj & ->).
      exists j, a. split; [ lia | reflexivity ]. }
  destruct L as (rs' & ts' & R' & -> & ->).
  destruct (runs_length R') as [Lr' Lt'].
  split; [ | exists rs'; split; [ exact Lr' | reflexivity ] ].
  symmetry. apply firstn_of_prefix.
  rewrite step_entries_length, length_firstn by assumption.
  destruct (Nat.le_ge_cases n (List.length workflow)) as [H | H].
  - left. lia.
  - right. split; [ | lia ].
    assert (Z : skipn n workflow = []) by now apply skipn_all2.
    rewrite Z in *. now destruct rs'.
Qed.

(** C9, as the code has it. When a task on a registered agent returns, the
    history of the agent object is the history from before followed by two
    entries: a user entry holding the task prompt (the text "Task: ", the
    task and, when there is a context, the context) and an assistant entry
    holding the result; no other object has changed.  After a workflow
    that returns, the history of every agent object is the history from
    before followed by these two entries for each step that ran on the
    object, in step order.  And whatever a task or a workflow comes to, a
    history only grows: nothing is ever dropped. *)
Theorem task_appends_two_entries_never_trimmed :
  (forall name task context st l r st',
     dict_get (agents (self st)) name = Some l ->
     exec name task context st = (Ok r, st') ->
     conversation_history (heap st' l) =
       conversation_history (heap st l)
       ++ [{| msg_role := lit "user";
              content := JStr (task_prompt task context) |};
           {| msg_role := lit "assistant"; content := r |}] /\
     forall q, q <> l -> heap st' q = heap st q)
  /\ (forall workflow st results st',
        run_workflow workflow st = (Ok results, st') ->
        forall l,
          let added :=
            history_added py_repr (agents (self st)) l [] workflow
              (List.map (fun kv => result (snd kv)) results) in
          conversation_history (heap st' l) =
            conversation_history (heap st l) ++ added /\
          List.length added =
            2 * List.length (steps_on (agents (self st)) l workflow))
  /\ (forall name task context st q,
        exists added,
          conversation_history
            (heap (snd (exec name task context st)) q)
          = conversation_history (heap st q) ++ added)
  /\ (forall workflow st q,
        exists added,
          conversation_history (heap (snd (run_workflow workflow st)) q)
          = conversation_history (heap st q) ++ added).
Proof.
  split; [ | split; [ | split ] ].
  - intros name task context st l r st' Hl E.
    destruct (exec_effect name task context st) as (r0 & st0 & E0 & _ & _ & H).
    rewrite E in E0. injection E0 as <- <-. rewrite Hl in H. split.
    + now rewrite H, Nat.eqb_refl.
    + intros q Hq. rewrite H. now destruct (Nat.eqb_spec q l).
  - intros workflow st results st' W l. apply workflow_spec in W.
    destruct W as (rs & ts & st1 & R & -> & Hh & _).
    destruct (runs_length R) as [Lr Lt].
    cbn zeta. rewrite step_entries_results, Hh by assumption.
    split; [ now apply runs_history with (ts := ts) | ].
    now apply history_added_length.
  - intros name task context st q.
    destruct (exec_history name task context st) as (r & st' & -> & _ & _ & H).
    cbn [snd]. destruct r as [v | e].
    + destruct H as [-> _]. eauto.
    + rewrite H. exists []. now rewrite app_nil_r.
  - intros workflow st q. unfold execute_crew_workflow.
    pose proof (loop_frame workflow 1 [] [] st) as F. cbn zeta in F.
    destruct F as (_ & _ & F). specialize (F q).
    destruct (loop 1 workflow [] [] st) as [[[results context] | e] st1];
      exact F.
Qed.

End AdvancedAgentFacts.
(** * The definitions, run *)

Section Runs.

Import AdvancedAgent Demo Samples.

Example loads_tool_call :
  Json.loads Json.cpython tool_call = Ok (JObj tool_call_dict).
Proof. vm_compute. reflexivity. Qed.

Example loads_escaped_tool_call :
  Json.loads Json.cpython escaped_tool_call = Ok (JObj tool_call_dict).
Proof. vm_compute. reflexivity. Qed.

Example loads_broken_tool_call :
  Json.loads Json.cpython broken_tool_call = Raise JSONDecodeError.
Proof. vm_compute. reflexivity. Qed.

(** Two thousand open arrays are more than the interpreter descends into,
    and an integer of 4400 digits is more than it converts. *)
Example loads_deep_text :
  Json.loads Json.cpython deep_text = Raise RecursionError.
Proof. vm_compute. reflexivity. Qed.

Example loads_long_integer_text :
  Json.loads Json.cpython long_integer_text = Raise ValueError.
Proof. vm_compute. reflexivity. Qed.

(** The example of the specification: two steps, two scripted responses. *)
Example two_steps_run :
  let '(r, st') :=
    execute_crew_workflow (scripted [lit "Findings about X"; lit "Analysis of X"])
      gateway_ok ticks repr_opaque Json.cpython two_steps crew in
  r = Ok [(lit "step_1_researcher",
           {| sr_task := lit "Research X";
              result := JStr (lit "Findings about X");
              timestamp := lit "1" |});
          (lit "step_2_analyst",
           {| sr_task := lit "Analyze X";
              result := JStr (lit "Analysis of X");
              timestamp := lit "3" |})].
Proof. vm_compute. reflexivity. Qed.

Example two_steps_context :
  fst (crew_loop (scripted [lit "Findings about X"; lit "Analysis of X"])
         gateway_ok ticks repr_opaque Json.cpython 1 two_steps [] [] crew)
  = Ok ([(lit "step_1_researcher",
          {| sr_task := lit "Research X";
             result := JStr (lit "Findings about X");
             timestamp := lit "1" |});
         (lit "step_2_analyst",
          {| sr_task := lit "Analyze X";
             result := JStr (lit "Analysis of X");
             timestamp := lit "3" |})],
        [10%N] ++ lit "researcher completed: Findings about X" ++ [10%N]
        ++ [10%N] ++ lit "analyst completed: Analysis of X" ++ [10%N]).
Proof. vm_compute. reflexivity. Qed.

(** A step for an agent nobody registered, then a step with the endpoint
    down: both are recorded and the workflow goes on. *)
Example failing_steps_run :
  fst (execute_crew_workflow (scripted []) gateway_ok ticks repr_opaque
         Json.cpython
         [{| agent := lit "writer"; task := lit "Write X" |};
          {| agent := lit "analyst"; task := lit "Analyze X" |}] crew)
  = Ok [(lit "step_1_writer",
         {| sr_task := lit "Write X";
            result := JStr (lit "Agent writer not found");
            timestamp := lit "0" |});
        (lit "step_2_analyst",
         {| sr_task := lit "Analyze X";
            result := JStr (lit "Error: Connection refused");
            timestamp := lit "2" |})].
Proof. vm_compute. reflexivity. Qed.

(** A script of texts the crew can go on with gives completions the crew
    can go on with: past the script the endpoint refuses, which gives an
    error text. *)
Lemma scripted_tame limits responses :
  forallb (fun r => goes_on limits (JStr r)) responses = true ->
  tame (scripted responses) limits.
Proof.
  intros H events payload. unfold scripted, scripted_contents.
  rewrite nth_error_map.
  destruct (nth_error responses _) as [r | ] eqn:E; cbn [option_map].
  - apply nth_error_In in E. rewrite forallb_forall in H. now apply H.
  - reflexivity.
Qed.

(** C1, the claim as it was stated, fails: this response decodes to a dict
    whose action is use_tool, with tool t and parameters x = 1, yet the
    word action does not occur in its text, so the task makes one
    completion request, no gateway request, and returns the response. *)
Lemma escaped_action_key_is_not_resolved :
  Json.loads Json.cpython escaped_tool_call = Ok (JObj tool_call_dict) /\
  dict_get tool_call_dict (lit "action") = Some (JStr (lit "use_tool")) /\
  dict_get (agents (self crew)) (lit "researcher") = Some 0 /\
  contains (lit "action") escaped_tool_call = false /\
  let '(r, st') :=
    execute_agent_task (scripted [escaped_tool_call; lit "Done"]) gateway_ok
      repr_opaque Json.cpython (lit "researcher") (lit "Research X") []
      crew in
  r = Ok (JStr escaped_tool_call) /\
  log st' =
    [PostCompletion
       (llm_payload (self crew) (task_messages researcher (lit "Research X") []))
       (Completed (JStr escaped_tool_call))].
Proof. vm_compute. repeat split. Qed.

(** The round trip, run: the second response is itself a tool call, and it
    is the result. *)
Lemma tool_call_round_trip_witness :
  exists st',
    execute_agent_task (scripted [tool_call; tool_call]) gateway_ok
      repr_opaque Json.cpython (lit "researcher") (lit "Research X") [] crew
    = (Ok (JStr tool_call), st') /\
    List.map is_completion (log st') = [true; false; true] /\
    nth_error (log st') 1 =
      Some (PostCall (lit "http://localhost:3000/call") (JStr (lit "t"))
              (JObj [(lit "x", JNum (lit "1"))])
              (Returned (JObj [(lit "status", JStr (lit "ok"))]))).
Proof.
  destruct (@tool_call_round_trip (scripted [tool_call; tool_call]) gateway_ok
              repr_opaque Json.cpython (lit "researcher") (lit "Research X")
              [] crew 0 tool_call tool_call_dict eq_refl eq_refl eq_refl
              eq_refl eq_refl eq_refl)
    as (st' & E & L & _).
  exists st'. split; [ exact E | ]. rewrite L. split; reflexivity.
Defined.

Lemma response_without_tool_call_is_final_witness :
  exists st',
    execute_agent_task (scripted [lit "Findings about X"]) gateway_ok
      repr_opaque Json.cpython (lit "researcher") (lit "Research X") [] crew
    = (Ok (JStr (lit "Findings about X")), st') /\
    List.map is_completion (log st') = [true].
Proof.
  destruct (@response_without_tool_call_is_final
              (scripted [lit "Findings about X"]) gateway_ok repr_opaque
              Json.cpython (lit "researcher") (lit "Research X") [] crew 0
              (lit "Findings about X") eq_refl eq_refl (or_introl eq_refl))
    as (st' & E & L & _).
  exists st'. split; [ exact E | ]. rewrite L. reflexivity.
Defined.





(** The context after the first of two steps, and after both. *)
Lemma context_grows_in_step_order_witness :
  exists results_1 context_1 st_1,
    crew_loop (scripted [lit "Findings about X"; lit "Analysis of X"])
      gateway_ok ticks repr_opaque Json.cpython 1 (firstn 1 two_steps) [] []
      crew
    = (Ok (results_1, context_1), st_1) /\
    context_1
    = [10%N] ++ lit "researcher completed: Findings about X" ++ [10%N] /\
    List.length results_1 = 1 /\
    forall results context st',
      crew_loop (scripted [lit "Findings about X"; lit "Analysis of X"])
        gateway_ok ticks repr_opaque Json.cpython 1 two_steps [] [] crew
      = (Ok (results, context), st') ->
      results_1 = firstn 1 results /\
      exists suffix, context = context_1 ++ suffix.
Proof.
  destruct (crew_loop (scripted [lit "Findings about X"; lit "Analysis of X"])
              gateway_ok ticks repr_opaque Json.cpython 1 (firstn 1 two_steps)
              [] [] crew) as [[[results_1 context_1] | e] st_1] eqn:L.
  2:{ apply (f_equal fst) in L. vm_compute in L. discriminate. }
  destruct (@context_grows_in_step_order
              (scripted [lit "Findings about X"; lit "Analysis of X"])
              gateway_ok ticks repr_opaque Json.cpython two_steps crew 1
              results_1 context_1 st_1 L)
    as ((rs & ts & R & Lr & Hres & Hmap & Hctx) & _ & Whole).
  exists results_1, context_1, st_1. split; [ reflexivity | ].
  apply (f_equal fst) in L. vm_compute in L. injection L as <- <-.
  split; [ reflexivity | ]. split; [ reflexivity | ].
  intros results context st' W.
  destruct (Whole results context st' W) as (Hf & rs' & _ & ->).
  split; [ exact Hf | ]. eexists. reflexivity.
Defined.

(** C9, the claim as it was stated, fails twice.  The user entry a task
    adds holds the task prompt, which is not the task; and a task whose
    response has null for its content raises, after which the history of
    its agent holds no entry at all. *)
Lemma task_records_prompt_or_nothing :
  dict_get (agents (self crew)) (lit "researcher") = Some 0 /\
  (let '(r, st') :=
     execute_agent_task (scripted [lit "Findings about X"]) gateway_ok
       repr_opaque Json.cpython (lit "researcher") (lit "Research X") []
       crew in
   r = Ok (JStr (lit "Findings about X")) /\
   List.map content (conversation_history (heap st' 0))
   = [JStr (lit "Task: Research X"); JStr (lit "Findings about X")]) /\
  (let '(r, st') :=
     execute_agent_task completes_null gateway_ok repr_opaque Json.cpython
       (lit "researcher") (lit "Research X") [] crew in
   r = Raise AttributeError /\
   List.map is_completion (log st') = [true] /\
   conversation_history (heap st' 0) = []).
Proof. vm_compute. repeat split. Qed.

Lemma task_appends_two_entries_never_trimmed_witness :
  conversation_history
    (heap (snd (execute_agent_task (scripted [lit "Findings about X"])
                  gateway_ok repr_opaque Json.cpython (lit "researcher")
                  (lit "Research X") [] crew)) 0)
  = [{| msg_role := lit "user"; content := JStr (lit "Task: Research X") |};
     {| msg_role := lit "assistant";
        content := JStr (lit "Findings about X") |}]
  /\ List.length
       (conversation_history
          (heap (snd (execute_crew_workflow
                        (scripted [lit "Findings about X";
                                   lit "Analysis of X"])
                        gateway_ok ticks repr_opaque Json.cpython two_steps
                        crew)) 1))
     = 2.
Proof.
  pose proof (@task_appends_two_entries_never_trimmed
                (scripted [lit "Findings about X"]) gateway_ok ticks
                repr_opaque Json.cpython) as [Task _].
  pose proof (@task_appends_two_entries_never_trimmed
                (scripted [lit "Findings about X"; lit "Analysis of X"])
                gateway_ok ticks repr_opaque Json.cpython)
    as (_ & Workflow & _).
  split.
  - destruct (execute_agent_task (scripted [lit "Findings about X"])
                gateway_ok repr_opaque Json.cpython (lit "researcher")
                (lit "Research X") [] crew) as [[r | e] st'] eqn:E.
    2:{ apply (f_equal fst) in E. vm_compute in E. discriminate. }
    destruct (Task (lit "researcher") (lit "Research X") [] crew 0 r st'
                eq_refl E) as [H _].
    cbn [snd]. rewrite H.
    apply (f_equal fst) in E. vm_compute in E. injection E as <-.
    reflexivity.
  - destruct (execute_crew_workflow
                (scripted [lit "Findings about X"; lit "Analysis of X"])
                gateway_ok ticks repr_opaque Json.cpython two_steps crew)
      as [[results | e] st'] eqn:E.
    2:{ apply (f_equal fst) in E. vm_compute in E. discriminate. }
    destruct (Workflow two_steps crew results st' E 1) as [H L].
    cbn [snd]. rewrite H, length_app, L. reflexivity.
Defined.

(** C7, the claim as it was stated, fails: with the endpoint down,
    [_make_request] raises, and so does [chat]. *)
Lemma make_request_raises_when_endpoint_down :
  SimpleAgent._make_request endpoint_down (SimpleAgent.init None) [] []
  = (Raise (Exception
              (lit "Error communicating with model: Connection refused")),
     [SimpleAgent.Post
        (SimpleAgent.request_payload (SimpleAgent.init None) [])
        (SimpleAgent.RequestException (lit "Connection refused"))])
  /\ fst (fst (SimpleAgent.chat endpoint_down (SimpleAgent.init None)
                 (lit "Hello") None []))
     = Raise (Exception
                (lit "Error communicating with model: Connection refused")).
Proof. vm_compute. split; reflexivity. Qed.

Lemma make_request_failure_raises_witness :
  SimpleAgent._make_request endpoint_down (SimpleAgent.init None) [] []
  = (Raise (Exception
              (lit "Error communicating with model: " ++
               lit "Connection refused")),
     [] ++ [SimpleAgent.Post
              (SimpleAgent.request_payload (SimpleAgent.init None) [])
              (SimpleAgent.RequestException (lit "Connection refused"))]).
Proof.
  exact (proj1 (@make_request_failure_raises endpoint_down
                  (SimpleAgent.init None) [] [] (lit "Connection refused")
                  eq_refl)).
Defined.

End Runs.
(** * Further properties *)

(** ** The conversational agent *)

Section SimpleAgentMore.

Import SimpleAgent Conversation.

Variable endpoint : list Event -> Payload -> HttpOutcome.

Lemma chat_log self u sp log :
  snd (chat endpoint self u sp log) =
    log ++ [Post (request_payload self (chat_messages self u sp))
                 (endpoint log
                    (request_payload self (chat_messages self u sp)))].
Proof.
  unfold chat, _make_request.
  destruct (endpoint log _) as [msg | e | j]; try reflexivity.
  destruct (first_choice_content j); reflexivity.
Qed.

Lemma chat_config self u sp log :
  config (snd (fst (chat endpoint self u sp log))) = config self.
Proof.
  pose proof (chat_effect endpoint self u sp log) as E.
  destruct (chat endpoint self u sp log) as [[[a | e] self'] log']; cbn.
  - apply E.
  - now subst.
Qed.

(** The body of the completion endpoint is read at
    [choices[0].message.content]: with such a body [chat] returns that
    content, records the exchange and trims the history to its last ten
    entries. *)
Theorem chat_returns_first_choice self u sp log d choice others message c :
  endpoint log (request_payload self (chat_messages self u sp))
    = Body (JObj d) ->
  dict_get d (lit "choices") = Some (JArr (JObj choice :: others)) ->
  dict_get choice (lit "message") = Some (JObj message) ->
  dict_get message (lit "content") = Some c ->
  chat endpoint self u sp log =
    (Ok c,
     {| config := config self;
        conversation_history :=
          last_n 10 (conversation_history self
                     ++ [{| role := lit "user"; content := JStr u |};
                         {| role := lit "assistant"; content := c |}]) |},
     log ++ [Post (request_payload self (chat_messages self u sp))
                  (Body (JObj d))]).
Proof.
  intros He Hc Hm Hx.
  pose proof (chat_effect endpoint self u sp log) as E.
  pose proof (chat_log self u sp log) as L.
  unfold chat, _make_request in *. rewrite He in *.
  unfold first_choice_content, getitem_key, getitem_0, bind in *.
  rewrite Hc, Hm, Hx in *. cbn [snd] in L.
  destruct E as [_ E]. cbn [conversation_history] in E.
  f_equal. f_equal. f_equal. exact E.
Qed.

(** A 2xx body of another shape makes [chat] raise after the request was
    sent, and leaves the agent as it was: [TypeError] when the body is not
    a dict, [KeyError] when it has no choices, [IndexError] when the
    choices are an empty list. *)
Theorem chat_malformed_body_raises self u sp log j :
  endpoint log (request_payload self (chat_messages self u sp)) = Body j ->
  let sent :=
    log ++ [Post (request_payload self (chat_messages self u sp)) (Body j)] in
  match j with
  | JObj d =>
      match dict_get d (lit "choices") with
      | None => chat endpoint self u sp log = (Raise KeyError, self, sent)
      | Some (JArr []) =>
          chat endpoint self u sp log = (Raise IndexError, self, sent)
      | Some _ => True
      end
  | _ => chat endpoint self u sp log = (Raise TypeError, self, sent)
  end.
Proof.
  intros He sent. subst sent. unfold chat, _make_request. rewrite He.
  destruct j as [ | b | n | t | l | d ]; try reflexivity.
  unfold first_choice_content, getitem_key, bind.
  destruct (dict_get d (lit "choices")) as [[ | | | | [ | x l] | ] | ];
    try exact I; reflexivity.
Qed.

Lemma think_config self t l log :
  config (snd (fst (think endpoint self t l log))) = config self.
Proof.
  unfold think.
  set (self1 := {| config := _; conversation_history := _ |}).
  pose proof (chat_config self1 t (Some think_system_prompt) log) as E.
  destruct (chat endpoint self1 t (Some think_system_prompt) log)
    as [[r self2] log']. cbn [fst snd config] in *. rewrite E.
  subst self1. cbn. now destruct (config self).
Qed.

Lemma call_config c self log :
  config (fst (call endpoint c self log)) = config self.
Proof.
  destruct c as [u sp | t l | ]; cbn [call].
  - pose proof (chat_config self u sp log) as E.
    destruct (chat endpoint self u sp log) as [[r s] g]. exact E.
  - pose proof (think_config self t l log) as E.
    destruct (think endpoint self t l log) as [[r s] g]. exact E.
  - reflexivity.
Qed.

(** No run of [chat], [think] and [reset_conversation] calls changes the
    configuration of the agent. *)
Theorem run_preserves_config cs : forall self log,
  config (fst (run endpoint cs self log)) = config self.
Proof.
  induction cs as [ | c cs IH ]; intros self log; [ reflexivity | ].
  cbn [run]. pose proof (call_config c self log) as E.
  destruct (call endpoint c self log) as [self' log'].
  rewrite IH. exact E.
Qed.

Lemma think_log self t l log :
  exists p o, snd (think endpoint self t l log) = log ++ [Post p o].
Proof.
  unfold think.
  set (self1 := {| config := _; conversation_history := _ |}).
  pose proof (chat_log self1 t (Some think_system_prompt) log) as E.
  destruct (chat endpoint self1 t (Some think_system_prompt) log)
    as [[r self2] log']. cbn [snd] in *. eauto.
Qed.

Lemma call_log c self log :
  exists evs,
    snd (call endpoint c self log) = log ++ evs /\
    List.length evs = (if sends_request c then 1 else 0).
Proof.
  destruct c as [u sp | t l | ]; cbn [call sends_request].
  - pose proof (chat_log self u sp log) as E.
    destruct (chat endpoint self u sp log) as [[r s] g]. cbn [snd] in *.
    eexists. split; [ exact E | reflexivity ].
  - destruct (think_log self t l log) as (p & o & E).
    destruct (think endpoint self t l log) as [[r s] g]. cbn [snd] in *.
    eexists. split; [ exact E | reflexivity ].
  - exists []. split; [ now rewrite app_nil_r | reflexivity ].
Qed.

(** Every [chat] and every [think] call sends exactly one request, whether
    it returns or raises, and [reset_conversation] sends none: a run adds
    to the log as many requests as it has [chat] and [think] calls, and
    keeps what the log held. *)
Theorem run_one_request_per_call cs : forall self log,
  exists evs,
    snd (run endpoint cs self log) = log ++ evs /\
    List.length evs = List.length (filter sends_request cs).
Proof.
  induction cs as [ | c cs IH ]; intros self log.
  - exists []. split; [ now rewrite app_nil_r | reflexivity ].
  - cbn [run filter]. destruct (call_log c self log) as (e1 & E1 & L1).
    destruct (call endpoint c self log) as [self' log']. cbn [snd] in E1.
    destruct (IH self' log') as (e2 & E2 & L2).
    exists (e1 ++ e2). rewrite E2, E1, <- app_assoc. split; [ reflexivity | ].
    rewrite length_app, L1, L2. now destruct (sends_request c).
Qed.

Lemma exchanges_length pairs :
  List.length (exchanges pairs) = 2 * List.length pairs.
Proof.
  induction pairs as [ | [u a] pairs IH ]; cbn [exchanges List.length];
    [ reflexivity | lia ].
Qed.

Lemma exchanges_snoc pairs u a :
  exchanges pairs
  ++ [{| role := lit "user"; content := JStr u |};
      {| role := lit "assistant"; content := a |}]
  = exchanges (pairs ++ [(u, a)]).
Proof.
  induction pairs as [ | [u0 a0] pairs IH ]; cbn [exchanges app];
    [ reflexivity | now rewrite IH ].
Qed.

(** Trimming whole exchanges to ten entries leaves whole exchanges. *)
Lemma last_ten_exchanges pairs :
  List.length pairs <= 6 ->
  exists pairs',
    last_n 10 (exchanges pairs) = exchanges pairs' /\
    List.length pairs' <= 5.
Proof.
  intros H. destruct (Nat.le_gt_cases (List.length pairs) 5) as [L | L].
  - exists pairs. split; [ | exact L ].
    apply last_n_all. rewrite exchanges_length. lia.
  - destruct pairs as [ | [u a] pairs ]; [ cbn in L; lia | ].
    exists pairs. cbn [List.length] in *. split; [ | lia ].
    unfold last_n. rewrite exchanges_length. cbn [List.length].
    replace (2 * S (List.length pairs) - 10) with 2 by lia. reflexivity.
Qed.

Lemma chat_whole_exchanges self u sp log :
  whole_exchanges self ->
  whole_exchanges (snd (fst (chat endpoint self u sp log))).
Proof.
  intros (pairs & Hh & Hl).
  pose proof (chat_effect endpoint self u sp log) as E.
  destruct (chat endpoint self u sp log) as [[[a | e] self'] log']; cbn.
  - destruct E as [_ E]. rewrite Hh, exchanges_snoc in E.
    destruct (@last_ten_exchanges (pairs ++ [(u, a)])) as (pairs' & P & L).
    { rewrite length_app. cbn. lia. }
    exists pairs'. split; [ now rewrite E | exact L ].
  - subst. now exists pairs.
Qed.

Lemma call_whole_exchanges c self log :
  whole_exchanges self ->
  whole_exchanges (fst (call endpoint c self log)).
Proof.
  intros H. destruct c as [u sp | t l | ]; cbn [call].
  - pose proof (@chat_whole_exchanges self u sp log H) as E.
    destruct (chat endpoint self u sp log) as [[r s] g]. exact E.
  - unfold think.
    set (self1 := {| config := _; conversation_history := _ |}).
    assert (H1 : whole_exchanges self1) by exact H.
    pose proof (@chat_whole_exchanges self1 t (Some think_system_prompt) log
                  H1) as E.
    destruct (chat endpoint self1 t (Some think_system_prompt) log)
      as [[r s] g]. exact E.
  - exists []. split; [ reflexivity | cbn; lia ].
Qed.

(** The history of an agent only ever holds whole exchanges, at most five
    of them: after any run on a new agent it is a sequence of user entries
    each followed by the assistant entry that answers it, so the trim to
    ten entries never separates a question from its answer. *)
Theorem history_holds_whole_exchanges cfg cs : forall log,
  exists pairs,
    conversation_history (fst (run endpoint cs (init cfg) log))
      = exchanges pairs /\
    List.length pairs <= 5.
Proof.
  assert (G : forall cs self log,
            whole_exchanges self ->
            whole_exchanges (fst (run endpoint cs self log))).
  { clear cs. induction cs as [ | c cs IH ]; intros self log H; [ exact H | ].
    cbn [run]. pose proof (@call_whole_exchanges c self log H) as E.
    destruct (call endpoint c self log) as [self' log']. now apply IH. }
  intros log. apply G. exists []. split; [ reflexivity | cbn; lia ].
Qed.

Lemma chat_messages_length self u sp :
  List.length (chat_messages self u sp)
  = List.length (conversation_history self) + 2.
Proof.
  unfold chat_messages. rewrite !length_app. cbn [List.length]. lia.
Qed.

Lemma call_requests_bounded c self log :
  List.length (conversation_history self) <= 10 ->
  Forall (fun e => List.length (messages_of e) <= 12) log ->
  Forall (fun e => List.length (messages_of e) <= 12)
         (snd (call endpoint c self log)).
Proof.
  intros H F. destruct c as [u sp | t l | ]; cbn [call].
  - pose proof (chat_log self u sp log) as E.
    destruct (chat endpoint self u sp log) as [[r s] g]. cbn [snd] in *.
    rewrite E. apply Forall_app. split; [ exact F | ].
    constructor; [ | constructor ]. cbn [messages_of request_payload p_messages].
    rewrite chat_messages_length. lia.
  - unfold think.
    set (self1 := {| config := _; conversation_history := _ |}).
    pose proof (chat_log self1 t (Some think_system_prompt) log) as E.
    destruct (chat endpoint self1 t (Some think_system_prompt) log)
      as [[r s] g]. cbn [snd] in *.
    rewrite E. apply Forall_app. split; [ exact F | ].
    constructor; [ | constructor ]. cbn [messages_of request_payload p_messages].
    rewrite chat_messages_length. subst self1. cbn [conversation_history]. lia.
  - exact F.
Qed.

Lemma call_history_bound c self log :
  List.length (conversation_history self) <= 10 ->
  List.length (conversation_history (fst (call endpoint c self log))) <= 10.
Proof.
  intros H. destruct c as [u sp | t l | ]; cbn [call].
  - pose proof (@chat_history_bound endpoint self u sp log H) as B.
    destruct (chat endpoint self u sp log) as [[r s] g]. exact B.
  - pose proof (@think_history_bound endpoint self t l log H) as B.
    destruct (think endpoint self t l log) as [[r s] g]. exact B.
  - cbn. lia.
Qed.

(** Every request a run on a new agent sends carries at most twelve
    messages: the system message, at most ten history entries and the
    input of the user. *)
Theorem run_requests_bounded cfg cs :
  Forall (fun e => List.length (messages_of e) <= 12)
         (snd (run endpoint cs (init cfg) [])).
Proof.
  assert (G : forall cs self log,
            List.length (conversation_history self) <= 10 ->
            Forall (fun e => List.length (messages_of e) <= 12) log ->
            Forall (fun e => List.length (messages_of e) <= 12)
                   (snd (run endpoint cs self log))).
  { clear cs. induction cs as [ | c cs IH ]; intros self log H F;
      [ exact F | ].
    cbn [run]. pose proof (@call_requests_bounded c self log H F) as F'.
    pose proof (@call_history_bound c self log H) as H'.
    destruct (call endpoint c self log) as [self' log']. now apply IH. }
  apply G; [ cbn; lia | constructor ].
Qed.

(** [think] sends one request, and its system message is the problem
    solver prompt followed by the requested reasoning level, whatever level
    the agent is configured with; the history follows, and the task comes
    last. *)
Theorem think_sends_requested_level self task level log :
  exists o,
    snd (think endpoint self task level log) =
      log ++ [Post
                {| p_url := model_url (config self) ++ lit "/chat/completions";
                   p_model := model_name (config self);
                   p_messages :=
                     {| role := lit "system";
                        content := JStr (think_system_prompt ++ [10%N]
                                         ++ lit "Reasoning: " ++ level) |}
                     :: conversation_history self
                     ++ [{| role := lit "user"; content := JStr task |}];
                   p_max_tokens := max_tokens (config self);
                   p_temperature := temperature (config self);
                   p_stream := false |} o].
Proof.
  unfold think.
  set (self1 := {| config := _; conversation_history := _ |}).
  pose proof (chat_log self1 task (Some think_system_prompt) log) as E.
  destruct (chat endpoint self1 task (Some think_system_prompt) log)
    as [[r s] g]. cbn [snd] in *. rewrite E. eexists. reflexivity.
Qed.

End SimpleAgentMore.

(** ** The availability check *)

Section AvailabilityFacts.

Import SimpleAgent Availability.

Lemma any_has_id_true name items :
  any_has_id name items = Ok true <->
  exists before m after,
    items = before ++ JObj m :: after /\
    Forall (fun x => exists dx, x = JObj dx) before /\
    dict_get m (lit "id") = Some (JStr name).
Proof.
  split.
  - induction items as [ | x items IH ]; cbn [any_has_id]; [ discriminate | ].
    destruct x as [ | b | n | t | l | dx ]; try discriminate.
    unfold has_id, py_get.
    destruct (dict_get dx (lit "id")) as [[ | b | n | t | l | dy] | ] eqn:E;
      try (intros H; apply IH in H; destruct H as (bf & m & af & -> & F & G);
           exists (JObj dx :: bf), m, af; repeat split; eauto).
    destruct (str_eqb t name) eqn:Q.
    + intros _. apply str_eqb_eq in Q. subst t.
      exists [], dx, items. repeat split; auto.
    + intros H; apply IH in H; destruct H as (bf & m & af & -> & F & G).
      exists (JObj dx :: bf), m, af. repeat split; eauto.
  - intros (before & m & after & -> & F & G).
    induction F as [ | x before [dx ->] F IH ]; cbn [any_has_id app].
    + unfold has_id, py_get. now rewrite G, str_eqb_refl.
    + unfold has_id, py_get.
      destruct (dict_get dx (lit "id")) as [[ | b | n | t | l | dy] | ];
        try exact IH.
      destruct (str_eqb t name); [ reflexivity | exact IH ].
Qed.

(** The check never raises, and it answers True exactly when the request
    comes back with status 200 and a dict whose data is a list in which a
    dict with the id of the configured model is preceded by dicts only. *)
Theorem check_docker_model_runner_spec get :
  exists b,
    check_docker_model_runner get = Ok b /\
    (b = true <->
     exists d items before m after,
       get (model_url default_config ++ lit "/models")
         = Status 200 (Ok (JObj d)) /\
       dict_get d (lit "data") = Some (JArr items) /\
       items = before ++ JObj m :: after /\
       Forall (fun x => exists dx, x = JObj dx) before /\
       dict_get m (lit "id") = Some (JStr (model_name default_config))).
Proof.
  unfold check_docker_model_runner.
  set (name := model_name default_config).
  destruct (get (model_url default_config ++ lit "/models"))
    as [msg | code body] eqn:G.
  { exists false. split; [ reflexivity | ]. split; [ discriminate | ].
    intros (d & items & bf & m & af & [=] & _). }
  destruct (Z.eqb_spec code 200) as [-> | Hc].
  2:{ exists false. split; [ reflexivity | ]. split; [ discriminate | ].
      intros (d & items & bf & m & af & [=] & _). congruence. }
  assert (No : forall b : bool,
            (forall d items, body = Ok (JObj d) ->
                             dict_get d (lit "data") = Some (JArr items) ->
                             any_has_id name items <> Ok true) ->
            b = false ->
            (b = true <->
             exists d items before m after,
               Status 200 body = Status 200 (Ok (JObj d)) /\
               dict_get d (lit "data") = Some (JArr items) /\
               items = before ++ JObj m :: after /\
               Forall (fun x => exists dx, x = JObj dx) before /\
               dict_get m (lit "id") = Some (JStr name))).
  { intros b H ->. split; [ discriminate | ].
    intros (d & items & bf & m & af & [= ->] & Hd & Hi & F & Hm).
    exfalso. apply (H d items eq_refl Hd). apply any_has_id_true.
    exists bf, m, af. auto. }
  destruct body as [j | e]; cbn [bind].
  2:{ exists false. split; [ reflexivity | ]. apply No; [ | reflexivity ].
      intros d items [=]. }
  destruct j as [ | b | n | t | l | d ]; cbn [py_get bind];
    try (exists false; split; [ reflexivity | ];
         apply No; [ intros ? ? [=] | reflexivity ]).
  destruct (dict_get d (lit "data")) as [models | ] eqn:D.
  2:{ exists false. split; [ reflexivity | ]. apply No; [ | reflexivity ].
      intros d' items [= <-]. congruence. }
  assert (Strs : forall (l : list JValue),
            Forall (fun x => exists t, x = JStr t) l ->
            any_has_id name l <> Ok true).
  { intros l F H. apply any_has_id_true in H.
    destruct H as (bf & m & af & -> & _ & _).
    apply Forall_app in F. destruct F as [_ F]. inversion F as [ | ? ? [t E] _ ].
    discriminate. }
  destruct models as [ | b | n | t | items | dm ]; cbn [py_iter bind];
    try (exists false; split; [ reflexivity | ];
         apply No; [ intros ? ? [= <-]; congruence | reflexivity ]).
  - (* the data is a text: its characters have no [get] *)
    destruct (any_has_id name (List.map (fun c => JStr [c]) t)) as [[ | ] | e]
      eqn:A.
    + exfalso. apply (Strs _) in A; [ exact A | ].
      apply Forall_forall. intros x Hx. apply in_map_iff in Hx.
      destruct Hx as (c & <- & _). eauto.
    + exists false. split; [ reflexivity | ].
      apply No; [ intros ? ? [= <-]; congruence | reflexivity ].
    + exists false. split; [ reflexivity | ].
      apply No; [ intros ? ? [= <-]; congruence | reflexivity ].
  - (* the data is a list *)
    destruct (any_has_id name items) as [[ | ] | e] eqn:A.
    + exists true. split; [ reflexivity | ]. split; [ | reflexivity ].
      intros _. apply any_has_id_true in A.
      destruct A as (bf & m & af & Hi & F & Hm).
      exists d, items, bf, m, af. auto.
    + exists false. split; [ reflexivity | ]. apply No; [ | reflexivity ].
      intros d' items' [= <-]. rewrite D. intros [= <-]. congruence.
    + exists false. split; [ reflexivity | ]. apply No; [ | reflexivity ].
      intros d' items' [= <-]. rewrite D. intros [= <-]. congruence.
  - (* the data is a dict: its keys have no [get] *)
    destruct (any_has_id name (List.map (fun kv => JStr (fst kv)) dm))
      as [[ | ] | e] eqn:A.
    + exfalso. apply (Strs _) in A; [ exact A | ].
      apply Forall_forall. intros x Hx. apply in_map_iff in Hx.
      destruct Hx as (c & <- & _). eauto.
    + exists false. split; [ reflexivity | ].
      apply No; [ intros ? ? [= <-]; congruence | reflexivity ].
    + exists false. split; [ reflexivity | ].
      apply No; [ intros ? ? [= <-]; congruence | reflexivity ].
Qed.

End AvailabilityFacts.

(** ** The crew: more on one task *)

Section AdvancedAgentMore.

Import AdvancedAgent Crew.

Variable completions : list Event -> Payload -> CompletionOutcome.
Variable gateway_tools : list Event -> str -> DiscoveryOutcome.
Variable gateway_call : list Event -> str -> JValue -> JValue -> GatewayOutcome.
Variable clock : list Event -> str.
Variable py_repr : JValue -> str.
Variable limits : Json.Limits.

Local Abbreviation exec :=
  (execute_agent_task completions gateway_call py_repr limits).
Local Abbreviation loop :=
  (crew_loop completions gateway_call clock py_repr limits).
Local Abbreviation run_workflow :=
  (execute_crew_workflow completions gateway_call clock py_repr limits).
Local Abbreviation steps_run :=
  (runs completions gateway_call clock py_repr limits).

Lemma task_messages_length agent task context :
  List.length (task_messages agent task context) <= 8.
Proof.
  unfold task_messages. rewrite !length_app, last_n_length.
  cbn [List.length]. lia.
Qed.

(** The requests of one task on a registered agent, whatever it comes to:
    the first completion request, and after a tool request one gateway
    request and one more completion request. *)
Lemma exec_requests name task context st l :
  dict_get (agents (self st)) name = Some l ->
  let messages := task_messages (heap st l) task context in
  let payload := llm_payload (self st) messages in
  let o := completions (log st) payload in
  exists r st' evs,
    exec name task context st = (r, st') /\
    log st' = log st ++ PostCompletion payload o :: evs /\
    match reading limits (response_value o) with
    | Final => evs = [] /\ r = Ok (response_value o)
    | ToolRequest tool_name parameters =>
        exists text g o2,
          response_value o = JStr text /\
          evs = [PostCall (gateway_url (mcp_manager (self st)) ++ lit "/call")
                   tool_name parameters g;
                 PostCompletion
                   (llm_payload (self st)
                      (continuation py_repr messages text tool_name
                         (gateway_result g))) o2] /\
          r = Ok (response_value o2)
    | Raises e => evs = [] /\ r = Raise e /\ heap st' = heap st
    end.
Proof.
  intros Hl messages payload o.
  pose proof (@exec_by_reading completions gateway_call py_repr limits name
                task context st l Hl) as E.
  cbn zeta in E. fold messages payload o in E.
  destruct (reading limits (response_value o))
    as [ | tool_name parameters | e ].
  - do 2 eexists. exists []. split; [ exact E | ].
    cbn [log with_heap with_log]. repeat split.
  - destruct E as (text & Ht & E). cbn [log with_log] in E.
    match type of E with
    | _ = (Ok (response_value ?o2),
           {| self := _; heap := _;
              log := (_ ++ [PostCall ?u ?t ?p ?g]) ++ [PostCompletion ?p2 _] |})
      => exists (Ok (response_value o2)); eexists;
         exists [PostCall u t p g; PostCompletion p2 o2]
    end.
    split; [ exact E | ]. cbn [log]. split.
    { rewrite <- (app_assoc (log st ++ _)), <- (app_assoc (log st)).
      reflexivity. }
    exists text. do 2 eexists. split; [ exact Ht | ]. split; reflexivity.
  - do 2 eexists. exists []. split; [ exact E | ].
    cbn [log heap with_log]. repeat split.
Qed.

(** What a task on a registered agent sends and comes to follows from its
    first response alone.  When the response asks for a tool, the task
    sends one gateway request with that tool and those parameters and one
    more completion request, whose response is the result.  When the
    response reads as final (no brace, no word action, invalid JSON,
    another action) the task sends nothing more, and the first response is
    the result.  When the response cannot be read (it is not a text, or
    [json.loads] raises on it something else than [JSONDecodeError]) the
    task raises that exception after its one request and leaves every
    agent as it was. *)
Theorem task_requests_by_response name task context st l :
  dict_get (agents (self st)) name = Some l ->
  let payload :=
    llm_payload (self st) (task_messages (heap st l) task context) in
  let o := completions (log st) payload in
  exists r st' evs,
    exec name task context st = (r, st') /\
    log st' = log st ++ PostCompletion payload o :: evs /\
    match reading limits (response_value o) with
    | Final => evs = [] /\ r = Ok (response_value o)
    | ToolRequest tool_name parameters =>
        exists g p2 o2,
          evs = [PostCall (gateway_url (mcp_manager (self st)) ++ lit "/call")
                   tool_name parameters g;
                 PostCompletion p2 o2] /\
          r = Ok (response_value o2)
    | Raises e => evs = [] /\ r = Raise e /\ heap st' = heap st
    end.
Proof.
  intros Hl payload o.
  destruct (@exec_requests name task context st l Hl)
    as (r & st' & evs & E & L & H).
  exists r, st', evs. split; [ exact E | ]. split; [ exact L | ].
  fold payload o in H.
  destruct (reading limits (response_value o))
    as [ | tool_name parameters | e ]; try exact H.
  destruct H as (text & g & o2 & _ & -> & ->). eauto.
Qed.

(** A completion request that fails never leads to a tool call: the task
    does not raise, its result is the text Error: followed by the cause,
    and that one request is all it sends. *)
Theorem failed_completion_is_the_result name task context st l msg :
  dict_get (agents (self st)) name = Some l ->
  let payload :=
    llm_payload (self st) (task_messages (heap st l) task context) in
  completions (log st) payload = Failed msg ->
  exists st',
    exec name task context st = (Ok (JStr (lit "Error: " ++ msg)), st') /\
    log st' = log st ++ [PostCompletion payload (Failed msg)] /\
    conversation_history (heap st' l) =
      conversation_history (heap st l)
      ++ task_entries task context (JStr (lit "Error: " ++ msg)).
Proof.
  intros Hl payload Hf.
  destruct (@exec_single_completion completions gateway_call py_repr limits
              name task context st l Hl) as (st' & E & L & _ & H).
  { fold payload. rewrite Hf. unfold reading, response_value.
    now rewrite error_text_is_final. }
  fold payload in E, L, H. rewrite Hf in E, L, H.
  exists st'. split; [ exact E | ]. split; [ exact L | ].
  rewrite H, Nat.eqb_refl. reflexivity.
Qed.

(** The events of one task, whatever it comes to: none, one completion
    request, or a completion request, a gateway request and a completion
    request; the first request carries at most eight messages and the
    last at most ten. *)
Lemma exec_events name task context st :
  exists r st' evs,
    exec name task context st = (r, st') /\
    log st' = log st ++ evs /\
    (evs = [] \/
     (exists p o,
        evs = [PostCompletion p o] /\ List.length (p_messages p) <= 8) \/
     (exists p o u t q g p2 o2,
        evs = [PostCompletion p o; PostCall u t q g; PostCompletion p2 o2] /\
        List.length (p_messages p) <= 8 /\
        List.length (p_messages p2) <= 10)).
Proof.
  destruct (dict_get (agents (self st)) name) as [l | ] eqn:Hl.
  - destruct (@exec_requests name task context st l Hl)
      as (r & st' & evs & E & L & H).
    pose proof (task_messages_length (heap st l) task context) as M.
    exists r, st'. eexists. split; [ exact E | ]. split; [ exact L | ].
    destruct (reading limits _) as [ | tool_name parameters | e ].
    + destruct H as [-> _]. right. left. do 2 eexists.
      split; [ reflexivity | exact M ].
    + destruct H as (text & g & o2 & _ & -> & _). right. right.
      do 8 eexists. split; [ reflexivity | ]. split; [ exact M | ].
      cbn [llm_payload p_messages]. unfold continuation.
      rewrite !length_app. cbn [List.length]. lia.
    + destruct H as [-> _]. right. left. do 2 eexists.
      split; [ reflexivity | exact M ].
  - unfold execute_agent_task. rewrite Hl. do 2 eexists. exists [].
    split; [ reflexivity | ]. split; [ now rewrite app_nil_r | now left ].
Qed.

(** However long the history of an agent has grown and whatever the task
    comes to, a task sends at most three requests, and a completion
    request carries at most ten messages: the system prompt, the last six
    history entries, the task and, after a tool call, the tool request and
    its result. *)
Theorem task_requests_bounded name task context st :
  exists r st' evs,
    exec name task context st = (r, st') /\
    log st' = log st ++ evs /\
    List.length evs <= 3 /\
    Forall (fun e => List.length (completion_messages e) <= 10) evs.
Proof.
  destruct (exec_events name task context st) as (r & st' & evs & E & L & H).
  exists r, st', evs. split; [ exact E | ]. split; [ exact L | ].
  destruct H as [-> | [(p & o & -> & M)
                      | (p & o & u & t & q & g & p2 & o2 & -> & M & M2)]];
    (split; [ cbn; lia | ]);
    repeat first [ apply Forall_nil | apply Forall_cons ];
    cbn [completion_messages List.length]; lia.
Qed.

Lemma last_n_two_more {A} n (h : list A) a b :
  last_n (S (S n)) (h ++ [a; b]) = last_n n h ++ [a; b].
Proof.
  unfold last_n. rewrite length_app. cbn [List.length].
  replace (List.length h + 2 - S (S n)) with (List.length h - n) by lia.
  rewrite skipn_app.
  replace (List.length h - n - List.length h) with 0 by lia. reflexivity.
Qed.

(** An agent remembers its last exchange, under whatever name it is
    addressed: when two names refer to the same agent object and a task
    under the first name has returned, the first request of a task under
    the second name carries, just before the new task, the task prompt and
    the result of that task; this holds whatever the second task comes
    to. *)
Theorem next_task_carries_last_exchange
    name1 task1 context1 name2 task2 context2 st l r1 st1 :
  dict_get (agents (self st)) name1 = Some l ->
  dict_get (agents (self st)) name2 = Some l ->
  exec name1 task1 context1 st = (Ok r1, st1) ->
  exists r2 st2 o evs earlier,
    exec name2 task2 context2 st1 = (r2, st2) /\
    log st2 =
      log st1
      ++ PostCompletion
           (llm_payload (self st)
              (earlier
               ++ task_entries task1 context1 r1
               ++ [{| msg_role := lit "user";
                      content := JStr (task_prompt task2 context2) |}])) o
         :: evs.
Proof.
  intros H1 H2 E1.
  destruct (exec_effect completions gateway_call py_repr limits name1 task1
              context1 st) as (r0 & st0 & E0 & Hs & _ & Hh).
  rewrite E1 in E0. injection E0 as <- <-. rewrite H1 in Hh.
  assert (H2' : dict_get (agents (self st1)) name2 = Some l)
    by now rewrite Hs.
  assert (M : task_messages (heap st1 l) task2 context2 =
              ({| msg_role := lit "system";
                  content := JStr (get_system_prompt (heap st l)) |}
               :: last_n 4 (conversation_history (heap st l)))
              ++ task_entries task1 context1 r1
              ++ [{| msg_role := lit "user";
                     content := JStr (task_prompt task2 context2) |}]).
  { unfold task_messages. rewrite Hh, Nat.eqb_refl.
    cbn [add_entries conversation_history].
    unfold task_entries.
    rewrite (last_n_two_more 4). cbn [app]. rewrite <- !app_assoc.
    reflexivity. }
  destruct (@exec_requests name2 task2 context2 st1 l H2')
    as (r2 & st2 & evs & E2 & L & _).
  rewrite M, Hs in L.
  exists r2, st2. do 3 eexists. split; [ exact E2 | exact L ].
Qed.

(** ** The crew: tools, registration and workflows *)

Lemma discovery_never_fatal_aux url log :
  exists m,
    new_manager gateway_tools url log
      = (Ok m, log ++ [GetTools (url ++ lit "/tools")
                         (gateway_tools log (url ++ lit "/tools"))]).
Proof.
  unfold new_manager, _discover_tools. cbn [gateway_url].
  destruct (gateway_tools log (url ++ lit "/tools")) as [e | code body].
  - eexists. reflexivity.
  - destruct (code =? 200)%Z.
    + destruct body as [j | e].
      * destruct (py_len j); eexists; reflexivity.
      * eexists. reflexivity.
    + eexists. reflexivity.
Qed.

(** After a discovery that fails (the request raises, the status is not
    200 or the body cannot be decoded) every tool has the fixed
    description "No description available". *)
Theorem no_description_after_failed_discovery url log :
  discovery_failed (gateway_tools log (url ++ lit "/tools")) = true ->
  exists m log',
    new_manager gateway_tools url log = (Ok m, log') /\
    forall tool_name,
      get_tool_description m tool_name
        = Ok (JStr (lit "No description available")).
Proof.
  unfold new_manager, _discover_tools, discovery_failed. cbn [gateway_url].
  destruct (gateway_tools log (url ++ lit "/tools")) as [e | code body].
  - intros _. do 2 eexists. split; reflexivity.
  - destruct (code =? 200)%Z; cbn [negb orb].
    + destruct body as [j | e]; [ discriminate | ].
      intros _. do 2 eexists. split; reflexivity.
    + intros _. do 2 eexists. split; reflexivity.
Qed.

(** What [get_tool_description] does with the tools the gateway listed: an
    unknown tool has the fixed description; a tool described by a dict has
    its description, or the fixed one when the dict has none; and the call
    raises [AttributeError] when the tool is described by anything but a
    dict, or when the listing itself is not a dict. *)
Theorem tool_description_cases self tool_name :
  match available_tools self with
  | JObj d =>
      match dict_get d tool_name with
      | None =>
          get_tool_description self tool_name
            = Ok (JStr (lit "No description available"))
      | Some (JObj descriptor) =>
          get_tool_description self tool_name
            = Ok match dict_get descriptor (lit "description") with
                 | Some text => text
                 | None => JStr (lit "No description available")
                 end
      | Some _ => get_tool_description self tool_name = Raise AttributeError
      end
  | _ => get_tool_description self tool_name = Raise AttributeError
  end.
Proof.
  unfold get_tool_description.
  destruct (available_tools self) as [ | b | n | t | l | d ]; try reflexivity.
  cbn [py_get bind].
  destruct (dict_get d tool_name) as [[ | b | n | t | l | desc] | ];
    try reflexivity.
  cbn [py_get bind]. now destruct (dict_get desc (lit "description")).
Qed.

Lemma new_system_ok cfg h events :
  exists st,
    new_system gateway_tools cfg h events = (Ok st, log st) /\
    config (self st)
      = match cfg with Some c => c | None => default_config end /\
    agents (self st) = [] /\
    task_results (self st) = [] /\
    heap st = h /\
    exists o, log st = events ++ [GetTools
                                    (mcp_gateway_url (config (self st))
                                     ++ lit "/tools") o].
Proof.
  unfold new_system.
  destruct (discovery_never_fatal_aux
              (mcp_gateway_url
                 match cfg with Some c => c | None => default_config end)
              events) as (m & E).
  rewrite E.
  match goal with
  | |- exists st, (Ok ?x, _) = _ /\ _ => exists x
  end.
  cbn [self config agents task_results heap log].
  do 5 (split; [ reflexivity | ]). eexists. reflexivity.
Qed.

(** The constructor of the system returns whatever the gateway does, after
    one discovery request.  The system it makes has no agent: until
    [add_agent] is called, every task returns the text naming the missing
    agent, sends nothing and changes nothing. *)
Theorem new_system_has_no_agents cfg h events :
  exists st o,
    new_system gateway_tools cfg h events = (Ok st, log st) /\
    log st = events ++ [GetTools (mcp_gateway_url (config (self st))
                                  ++ lit "/tools") o] /\
    forall name task context,
      exec name task context st
      = (Ok (JStr (lit "Agent " ++ name ++ lit " not found")), st).
Proof.
  destruct (new_system_ok cfg h events) as (st & E & _ & Ha & _ & _ & o & L).
  exists st, o. split; [ exact E | ]. split; [ exact L | ].
  intros name task context. unfold execute_agent_task. now rewrite Ha.
Qed.

Lemma dict_get_set {V} (d : dict V) k v k' :
  dict_get (dict_set d k v) k' =
    if str_eqb k' k then Some v else dict_get d k'.
Proof.
  induction d as [ | [k0 v0] d IH ]; cbn [dict_set dict_get].
  - destruct (str_eqb k k') eqn:E, (str_eqb k' k) eqn:E'; try reflexivity.
    + apply str_eqb_eq in E. apply str_eqb_neq in E'. congruence.
    + apply str_eqb_eq in E'. apply str_eqb_neq in E. congruence.
  - destruct (str_eqb k0 k) eqn:E0; cbn [dict_get].
    + apply str_eqb_eq in E0. subst k0.
      destruct (str_eqb k k') eqn:E, (str_eqb k' k) eqn:E'; try reflexivity.
      * apply str_eqb_eq in E. apply str_eqb_neq in E'. congruence.
      * apply str_eqb_eq in E'. apply str_eqb_neq in E. congruence.
    + rewrite IH. destruct (str_eqb k0 k') eqn:E; [ | reflexivity ].
      apply str_eqb_eq in E. subst k'.
      destruct (str_eqb k0 k) eqn:E'; [ discriminate | reflexivity ].
Qed.

(** [add_agent] registers or replaces: afterwards the name refers to the
    agent object given and every other name refers to what it did before.
    A task under the name that returns has added its two entries to that
    object and left every other object, the one replaced included, as it
    was; a task that raises has changed no object. *)
Theorem added_agent_runs_the_tasks name l st :
  (forall other,
     dict_get (agents (self (add_agent name l st))) other =
       if str_eqb other name then Some l
       else dict_get (agents (self st)) other) /\
  (forall task context,
     exists r st',
       exec name task context (add_agent name l st) = (r, st') /\
       match r with
       | Ok v =>
           forall q,
             heap st' q =
               if Nat.eqb q l
               then add_entries (heap st l) (task_entries task context v)
               else heap st q
       | Raise _ => heap st' = heap st
       end).
Proof.
  split.
  - intros other. cbn [add_agent self agents]. apply dict_get_set.
  - intros task context.
    destruct (exec_effect completions gateway_call py_repr limits name task
                context (add_agent name l st)) as (r & st' & E & _ & _ & H).
    cbn [add_agent self agents] in H.
    rewrite dict_get_set, str_eqb_refl in H.
    exists r, st'. split; [ exact E | ].
    destruct r as [v | e]; [ exact H | apply H ].
Qed.

(** Two steps get the same key only when they have the same number and the
    same agent name, whatever digits and underscores the name contains. *)
Theorem step_key_determines_step i a j b :
  step_key i a = step_key j b <-> i = j /\ a = b.
Proof.
  split; [ apply step_key_inj | intros [-> ->]; reflexivity ].
Qed.

(** A workflow that returns leaves the configuration, the tool manager and
    the registered agents as they were, and adds exactly one record to the
    past runs: the steps it was given, the results it returns and a
    timestamp.  A workflow that raises leaves the crew as it was: no
    record is added. *)
Theorem workflow_records_one_run workflow st :
  match
    execute_crew_workflow completions gateway_call clock py_repr limits
      workflow st
  with
  | (Ok results, st') =>
      exists t,
        config (self st') = config (self st) /\
        mcp_manager (self st') = mcp_manager (self st) /\
        agents (self st') = agents (self st) /\
        task_results (self st') =
          task_results (self st)
          ++ [{| wr_workflow := workflow; wr_results := results;
                 wr_timestamp := t |}]
  | (Raise _, st') => self st' = self st
  end.
Proof.
  destruct (run_workflow workflow st) as [[results | e] st'] eqn:W.
  - apply workflow_spec in W.
    destruct W as (rs & ts & st1 & _ & _ & _ & _ & Hc & Hm & Ha & Ht).
    eexists. repeat split; eassumption.
  - unfold execute_crew_workflow in W.
    pose proof (loop_frame completions gateway_call clock py_repr limits
                  workflow 1 [] [] st) as F.
    cbn zeta in F. destruct F as (F & _).
    destruct (loop 1 workflow [] [] st) as [[[results context] | e'] st1];
      [ discriminate | ].
    injection W as <- <-. exact F.
Qed.

(** After a workflow that returns, every step has run, the results hold
    one entry for each, and the history of every agent object is the
    history from before followed, for each step that ran on the object and
    in step order, by the task prompt of the step, which holds the lines
    of all the steps before it, and by the result recorded for the
    step. *)
Theorem workflow_history_in_full workflow st results st' :
  run_workflow workflow st = (Ok results, st') ->
  let rs := List.map (fun kv => result (snd kv)) results in
  List.length rs = List.length workflow /\
  (exists ts st1, steps_run [] st workflow rs ts st1) /\
  forall l,
    conversation_history (heap st' l) =
      conversation_history (heap st l)
      ++ history_added py_repr (agents (self st)) l [] workflow rs.
Proof.
  intros W. apply workflow_spec in W.
  destruct W as (rs & ts & st1 & R & -> & Hh & _).
  destruct (runs_length R) as [Lr Lt].
  cbn zeta. rewrite step_entries_results by assumption.
  split; [ exact Lr | ]. split; [ eauto | ].
  intros l. rewrite Hh. exact (runs_history R l).
Qed.

(** ** The research crew of [main] *)

Lemma lstrip_nil_iff s : lstrip s = [] <-> forallb isspace s = true.
Proof.
  induction s as [ | c s IH ]; cbn; [ tauto | ].
  destruct (isspace c); cbn; [ exact IH | ]. split; discriminate.
Qed.

(** The topic [main] works on is the typed text without the whitespace
    around it, and the default topic when nothing but whitespace was
    typed. *)
Theorem research_topic_or_default typed :
  research_topic typed =
    if forallb isspace typed then lit "AI agent development trends"
    else strip typed.
Proof.
  unfold research_topic. pose proof (strip_head typed) as H.
  pose proof (lstrip_nil_iff typed) as N.
  destruct (lstrip typed) as [ | c t ].
  - rewrite H. now rewrite (proj1 N eq_refl).
  - destruct H as [u ->].
    destruct (forallb isspace typed); [ | reflexivity ].
    destruct N as [_ N]. discriminate (N eq_refl).
Qed.

(** [create_research_crew] returns whatever the gateway does.  When the
    workflow of [main] then returns, for whatever topic, it returns the
    three entries step_1_researcher, step_2_analyst and step_3_writer, in
    this order, each with the task of its step, and each of the three
    agents ends with exactly the two history entries of its own step: the
    task prompt, which for the analyst holds the line of the researcher
    and for the writer the lines of both, and the result of the step.  The
    workflow returns whenever every completion is one the crew can go on
    with. *)
Theorem research_crew_runs_three_steps events topic :
  exists crew,
    create_research_crew gateway_tools events = Ok crew /\
    (forall results st',
       run_workflow (research_workflow topic) crew = (Ok results, st') ->
       exists r1 r2 r3 t1 t2 t3,
         results =
           [(lit "step_1_researcher",
             {| sr_task := task (nth 0 (research_workflow topic)
                                   {| agent := []; task := [] |});
                result := r1; timestamp := t1 |});
            (lit "step_2_analyst",
             {| sr_task := task (nth 1 (research_workflow topic)
                                   {| agent := []; task := [] |});
                result := r2; timestamp := t2 |});
            (lit "step_3_writer",
             {| sr_task := task (nth 2 (research_workflow topic)
                                   {| agent := []; task := [] |});
                result := r3; timestamp := t3 |})] /\
         let context1 :=
           context_line (lit "researcher") (format py_repr r1) in
         let context2 :=
           context1 ++ context_line (lit "analyst") (format py_repr r2) in
         conversation_history (heap st' 0)
         = task_entries (task (nth 0 (research_workflow topic)
                                 {| agent := []; task := [] |})) [] r1 /\
         conversation_history (heap st' 1)
         = task_entries (task (nth 1 (research_workflow topic)
                                 {| agent := []; task := [] |}))
             context1 r2 /\
         conversation_history (heap st' 2)
         = task_entries (task (nth 2 (research_workflow topic)
                                 {| agent := []; task := [] |}))
             context2 r3) /\
    (tame completions limits ->
     exists results st',
       run_workflow (research_workflow topic) crew = (Ok results, st')).
Proof.
  unfold create_research_crew.
  destruct (new_system_ok None crew_objects events)
    as (st0 & E0 & _ & Ha & _ & Hh0 & _).
  rewrite E0.
  set (crew := add_agent _ _ _).
  assert (A : agents (self crew) =
              [(lit "researcher", 0); (lit "analyst", 1); (lit "writer", 2)]).
  { subst crew. cbn [add_agent self agents]. rewrite Ha. reflexivity. }
  assert (H : heap crew = crew_objects) by exact Hh0.
  exists crew. split; [ reflexivity | ]. split.
  - intros results st' W. apply workflow_spec in W.
    destruct W as (rs & ts & st1 & R & -> & Hh & _).
    destruct (runs_length R) as [Lr Lt].
    destruct rs as [ | r1 [ | r2 [ | r3 [ | ] ] ] ]; try discriminate.
    destruct ts as [ | t1 [ | t2 [ | t3 [ | ] ] ] ]; try discriminate.
    exists r1, r2, r3, t1, t2, t3. split; [ reflexivity | ].
    cbn zeta. rewrite Hh.
    rewrite !(runs_history R), A, H. repeat split.
  - intros T. unfold execute_crew_workflow.
    destruct (loop_goes_on gateway_call clock py_repr
                (research_workflow topic) T 1 [] [] crew)
      as (results & context & st1 & ->).
    unfold now. eauto.
Qed.

(** ** What a workflow costs *)

Lemma count_app f a b : count f (a ++ b) = count f a + count f b.
Proof. unfold count. now rewrite filter_app, length_app. Qed.

Lemma exec_counts name task context st :
  exists r st' evs,
    exec name task context st = (r, st') /\
    log st' = log st ++ evs /\
    count is_completion_request evs <= 2 /\
    count is_tool_request evs <= 1 /\
    count is_clock_reading evs = 0.
Proof.
  destruct (exec_events name task context st) as (r & st' & evs & E & L & H).
  exists r, st', evs. split; [ exact E | ]. split; [ exact L | ].
  destruct H as [-> | [(p & o & -> & M)
                      | (p & o & u & t & q & g & p2 & o2 & -> & M & M2)]];
    cbn; repeat split; lia.
Qed.

Lemma loop_counts steps : forall i results context st,
  exists r st' evs,
    loop i steps results context st = (r, st') /\
    log st' = log st ++ evs /\
    count is_completion_request evs <= 2 * List.length steps /\
    count is_tool_request evs <= List.length steps /\
    count is_clock_reading evs <= List.length steps /\
    (forall out, r = Ok out ->
                 count is_clock_reading evs = List.length steps).
Proof.
  induction steps as [ | s steps IH ]; intros i results context st.
  - do 2 eexists. exists []. cbn. rewrite app_nil_r.
    repeat split; lia.
  - cbn [crew_loop].
    destruct (exec_counts (agent s) (task s) context st)
      as (r & st1 & e1 & E & L1 & C1 & G1 & K1).
    rewrite E. destruct r as [v | e].
    + unfold now.
      set (t := clock (log st1)). set (st2 := with_log st1 (Now t)).
      destruct (preview v) as [[] | e].
      * match goal with
        | |- context [ loop ?i' steps ?r' ?c' st2 ] =>
            destruct (IH i' r' c' st2)
              as (out & st' & e2 & E2 & L2 & C2 & G2 & K2 & K2')
        end.
        exists out, st', (e1 ++ Now t :: e2). split; [ exact E2 | ].
        split.
        { rewrite L2. subst st2. cbn [log with_log].
          rewrite L1, <- !app_assoc. reflexivity. }
        rewrite !count_app.
        change (Now t :: e2) with ([Now t] ++ e2). rewrite !count_app.
        cbn [count filter is_completion_request is_tool_request
             is_clock_reading List.length]. cbn [List.length].
        repeat split; try lia.
        intros out' ->. specialize (K2' _ eq_refl). lia.
      * do 2 eexists. exists (e1 ++ [Now t]). split; [ reflexivity | ].
        split.
        { subst st2. cbn [log with_log]. now rewrite L1, <- app_assoc. }
        rewrite !count_app. cbn [count filter is_completion_request
          is_tool_request is_clock_reading List.length]. cbn [List.length].
        repeat split; try lia. discriminate.
    + do 2 eexists. exists e1. split; [ reflexivity | ].
      split; [ exact L1 | ]. cbn [List.length].
      repeat split; try lia. discriminate.
Qed.

(** A workflow of N steps sends at most 2 N completion requests and at
    most N gateway requests and reads the clock at most N + 1 times,
    whatever it comes to; when it returns, it has read the clock exactly
    N + 1 times. *)
Theorem workflow_requests_bounded workflow st :
  exists r st' evs,
    run_workflow workflow st = (r, st') /\
    log st' = log st ++ evs /\
    count is_completion_request evs <= 2 * List.length workflow /\
    count is_tool_request evs <= List.length workflow /\
    count is_clock_reading evs <= List.length workflow + 1 /\
    (forall results,
       r = Ok results ->
       count is_clock_reading evs = List.length workflow + 1).
Proof.
  destruct (loop_counts workflow 1 [] [] st)
    as (r & st1 & evs & E & L & C & G & K & K').
  unfold execute_crew_workflow. rewrite E.
  destruct r as [[results context] | e].
  - cbn [now with_log fst snd].
    do 2 eexists. exists (evs ++ [Now (clock (log st1))]).
    split; [ reflexivity | ]. cbn [log]. split.
    { cbn [log with_log]. rewrite L at 1. now rewrite <- app_assoc. }
    specialize (K' _ eq_refl).
    rewrite !count_app. cbn. repeat split; lia.
  - do 2 eexists. exists evs. split; [ reflexivity | ].
    split; [ exact L | ]. repeat split; try lia. discriminate.
Qed.

(** ** The system prompt *)

Lemma contains_here sub b : contains sub (sub ++ b) = true.
Proof. apply contains_iff. now exists [], b. Qed.

Lemma contains_later sub a b :
  contains sub b = true -> contains sub (a ++ b) = true.
Proof.
  rewrite !contains_iff. intros (x & y & ->). exists (a ++ x), y.
  now rewrite <- app_assoc.
Qed.

Lemma contains_earlier sub a b :
  contains sub a = true -> contains sub (a ++ b) = true.
Proof.
  rewrite !contains_iff. intros (x & y & ->). exists x, (y ++ b).
  now rewrite <- !app_assoc.
Qed.

Lemma join_holds_each sep t l :
  In t l -> contains t (join sep l) = true.
Proof.
  induction l as [ | x l IH ]; [ intros [] | ].
  intros [-> | H].
  - destruct l as [ | y l ]; cbn [join].
    + pose proof (contains_here t []) as C. now rewrite app_nil_r in C.
    + apply contains_here.
  - destruct l as [ | y l ]; [ destruct H | ].
    cbn [join]. apply contains_later, contains_later, IH, H.
Qed.

(** The system prompt of an agent holds its role, its goal and its
    backstory, and it names every tool of the agent; an agent without
    tools is told that no tools are available. *)
Theorem system_prompt_names_the_tools self :
  contains (role self) (get_system_prompt self) = true /\
  contains (goal self) (get_system_prompt self) = true /\
  contains (backstory self) (get_system_prompt self) = true /\
  (forall t, In t (tools self) ->
             contains t (get_system_prompt self) = true) /\
  (tools self = [] ->
   contains (lit "No tools available") (get_system_prompt self) = true).
Proof.
  unfold get_system_prompt. repeat split.
  - apply contains_later, contains_here.
  - do 5 apply contains_later. apply contains_here.
  - do 8 apply contains_later. apply contains_here.
  - intros t H. do 10 apply contains_later. apply contains_earlier.
    destruct (tools self) as [ | x l ] eqn:T; [ destruct H | ].
    apply contains_later. now apply join_holds_each.
  - intros ->. do 10 apply contains_later. apply contains_here.
Qed.

End AdvancedAgentMore.
(** * More runs *)

Section MoreRuns.

Import Demo Samples.

Lemma chat_returns_first_choice_witness :
  SimpleAgent.chat endpoint_greets (SimpleAgent.init None) (lit "Hello") None []
  = (Ok (JStr (lit "Hi there")),
     {| SimpleAgent.config := SimpleAgent.default_config;
        SimpleAgent.conversation_history :=
          [{| SimpleAgent.role := lit "user";
              SimpleAgent.content := JStr (lit "Hello") |};
           {| SimpleAgent.role := lit "assistant";
              SimpleAgent.content := JStr (lit "Hi there") |}] |},
     [SimpleAgent.Post
        (SimpleAgent.request_payload (SimpleAgent.init None)
           (SimpleAgent.chat_messages (SimpleAgent.init None) (lit "Hello")
              None))
        (SimpleAgent.Body greeting_body)]).
Proof.
  exact (@chat_returns_first_choice endpoint_greets (SimpleAgent.init None)
           (lit "Hello") None [] _ _ _ _ _ eq_refl eq_refl eq_refl eq_refl).
Defined.

Lemma chat_malformed_body_raises_witness :
  SimpleAgent.chat endpoint_empty_body (SimpleAgent.init None) (lit "Hello")
    None []
  = (Raise KeyError, SimpleAgent.init None,
     [SimpleAgent.Post
        (SimpleAgent.request_payload (SimpleAgent.init None)
           (SimpleAgent.chat_messages (SimpleAgent.init None) (lit "Hello")
              None))
        (SimpleAgent.Body (JObj []))]).
Proof.
  exact (@chat_malformed_body_raises endpoint_empty_body
           (SimpleAgent.init None) (lit "Hello") None [] (JObj []) eq_refl).
Defined.

Lemma check_docker_model_runner_spec_witness :
  Availability.check_docker_model_runner models_listed = Ok true.
Proof.
  destruct (check_docker_model_runner_spec models_listed) as (b & E & H).
  rewrite E. f_equal. apply H.
  exists [(lit "object", JStr (lit "list"));
          (lit "data",
           JArr [JObj [(lit "id", JStr (lit "ai/smollm2"))];
                 JObj [(lit "id", JStr (lit "ai/gpt-oss"))]])],
         [JObj [(lit "id", JStr (lit "ai/smollm2"))];
          JObj [(lit "id", JStr (lit "ai/gpt-oss"))]],
         [JObj [(lit "id", JStr (lit "ai/smollm2"))]],
         [(lit "id", JStr (lit "ai/gpt-oss"))], [].
  repeat split. repeat constructor. eauto.
Defined.

Lemma task_requests_by_response_witness :
  exists st' g p2 o2,
    AdvancedAgent.execute_agent_task (scripted [tool_call; lit "Done"])
      gateway_ok repr_opaque Json.cpython (lit "researcher")
      (lit "Research X") [] crew
    = (Ok (AdvancedAgent.response_value o2), st') /\
    List.map is_completion (AdvancedAgent.log st') = [true; false; true] /\
    nth_error (AdvancedAgent.log st') 1
    = Some (AdvancedAgent.PostCall (lit "http://localhost:3000/call")
              (JStr (lit "t")) (JObj [(lit "x", JNum (lit "1"))]) g) /\
    nth_error (AdvancedAgent.log st') 2
    = Some (AdvancedAgent.PostCompletion p2 o2).
Proof.
  destruct (@task_requests_by_response (scripted [tool_call; lit "Done"])
              gateway_ok repr_opaque Json.cpython (lit "researcher")
              (lit "Research X") [] crew 0 eq_refl)
    as (r & st' & evs & E & L & H).
  match type of H with
  | match ?x with _ => _ end =>
      assert (Rd : x = Crew.ToolRequest (JStr (lit "t"))
                         (JObj [(lit "x", JNum (lit "1"))]))
        by (vm_compute; reflexivity);
      rewrite Rd in H
  end.
  destruct H as (g & p2 & o2 & -> & ->).
  exists st', g, p2, o2. split; [ exact E | ]. rewrite L.
  repeat split.
Defined.

Lemma failed_completion_is_the_result_witness :
  exists st',
    AdvancedAgent.execute_agent_task (scripted []) gateway_ok repr_opaque
      Json.cpython (lit "researcher") (lit "Research X") [] crew
    = (Ok (JStr (lit "Error: Connection refused")), st').
Proof.
  destruct (@failed_completion_is_the_result (scripted []) gateway_ok
              repr_opaque Json.cpython (lit "researcher") (lit "Research X")
              [] crew 0 (lit "Connection refused") eq_refl eq_refl)
    as (st' & E & _).
  exists st'. exact E.
Defined.

Lemma next_task_carries_last_exchange_witness :
  exists st1 r2 st2 o evs earlier,
    AdvancedAgent.execute_agent_task
      (scripted [lit "Findings about X"; lit "Plan for X"]) gateway_ok
      repr_opaque Json.cpython (lit "researcher") (lit "Research X") []
      crew_with_lead
    = (Ok (JStr (lit "Findings about X")), st1) /\
    AdvancedAgent.execute_agent_task
      (scripted [lit "Findings about X"; lit "Plan for X"]) gateway_ok
      repr_opaque Json.cpython (lit "lead") (lit "Plan X") [] st1
    = (r2, st2) /\
    AdvancedAgent.log st2 =
      AdvancedAgent.log st1
      ++ AdvancedAgent.PostCompletion
           (AdvancedAgent.llm_payload (AdvancedAgent.self crew_with_lead)
              (earlier
               ++ AdvancedAgent.task_entries (lit "Research X") []
                    (JStr (lit "Findings about X"))
               ++ [{| AdvancedAgent.msg_role := lit "user";
                      AdvancedAgent.content := JStr (lit "Task: Plan X") |}]))
           o
         :: evs.
Proof.
  destruct (AdvancedAgent.execute_agent_task
              (scripted [lit "Findings about X"; lit "Plan for X"]) gateway_ok
              repr_opaque Json.cpython (lit "researcher") (lit "Research X")
              [] crew_with_lead) as [[r1 | e] st1] eqn:E1.
  2:{ apply (f_equal fst) in E1. vm_compute in E1. discriminate. }
  destruct (@next_task_carries_last_exchange
              (scripted [lit "Findings about X"; lit "Plan for X"])
              gateway_ok repr_opaque Json.cpython
              (lit "researcher") (lit "Research X") []
              (lit "lead") (lit "Plan X") [] crew_with_lead 0 r1 st1
              eq_refl eq_refl E1)
    as (r2 & st2 & o & evs & earlier & E2 & L).
  apply (f_equal fst) in E1. vm_compute in E1. injection E1 as <-.
  exists st1, r2, st2, o, evs, earlier.
  split; [ reflexivity | ]. split; [ exact E2 | exact L ].
Defined.

Lemma workflow_history_in_full_witness :
  exists results st',
    AdvancedAgent.execute_crew_workflow
      (scripted [lit "Findings about X"; lit "Analysis of X"]) gateway_ok
      ticks repr_opaque Json.cpython two_steps crew
    = (Ok results, st') /\
    List.length results = 2 /\
    List.map AdvancedAgent.content
      (AdvancedAgent.conversation_history (AdvancedAgent.heap st' 1))
    = [JStr (lit "Task: Analyze X" ++ [10%N; 10%N]
             ++ lit "Context from previous agents: " ++ [10%N]
             ++ lit "researcher completed: Findings about X" ++ [10%N]);
       JStr (lit "Analysis of X")].
Proof.
  destruct (AdvancedAgent.execute_crew_workflow
              (scripted [lit "Findings about X"; lit "Analysis of X"])
              gateway_ok ticks repr_opaque Json.cpython two_steps crew)
    as [[results | e] st'] eqn:W.
  2:{ apply (f_equal fst) in W. vm_compute in W. discriminate. }
  destruct (@workflow_history_in_full
              (scripted [lit "Findings about X"; lit "Analysis of X"])
              gateway_ok ticks repr_opaque Json.cpython two_steps crew
              results st' W) as (Len & _ & H).
  exists results, st'. split; [ reflexivity | ].
  rewrite length_map in Len. split; [ exact Len | ].
  rewrite H. apply (f_equal fst) in W. vm_compute in W. injection W as <-.
  reflexivity.
Defined.

Lemma workflow_requests_bounded_witness :
  exists st' evs,
    snd (AdvancedAgent.execute_crew_workflow
           (scripted [lit "Findings about X"; lit "Analysis of X"])
           gateway_ok ticks repr_opaque Json.cpython two_steps crew) = st' /\
    AdvancedAgent.log st' = evs /\
    Crew.count Crew.is_clock_reading evs = 3 /\
    Crew.count Crew.is_completion_request evs <= 4.
Proof.
  destruct (@workflow_requests_bounded
              (scripted [lit "Findings about X"; lit "Analysis of X"])
              gateway_ok ticks repr_opaque Json.cpython two_steps crew)
    as (r & st' & evs & E & L & C & _ & _ & K).
  exists st', evs. rewrite E. split; [ reflexivity | ].
  split; [ exact L | ]. split; [ | exact C ].
  destruct r as [results | e].
  - exact (K results eq_refl).
  - apply (f_equal fst) in E. vm_compute in E. discriminate.
Defined.

Lemma research_crew_runs_three_steps_witness :
  exists crew results st',
    Crew.create_research_crew gateway_down [] = Ok crew /\
    AdvancedAgent.execute_crew_workflow
      (scripted [lit "Findings"; lit "Analysis"; lit "Report"]) gateway_ok
      ticks repr_opaque Json.cpython (Crew.research_workflow (lit "X")) crew
    = (Ok results, st') /\
    dict_keys results
    = [lit "step_1_researcher"; lit "step_2_analyst"; lit "step_3_writer"] /\
    List.length
      (AdvancedAgent.conversation_history (AdvancedAgent.heap st' 2)) = 2.
Proof.
  destruct (@research_crew_runs_three_steps
              (scripted [lit "Findings"; lit "Analysis"; lit "Report"])
              gateway_down gateway_ok ticks repr_opaque Json.cpython []
              (lit "X")) as (crew & C & Spec & Returns).
  destruct (Returns (@scripted_tame Json.cpython
                       [lit "Findings"; lit "Analysis"; lit "Report"]
                       eq_refl)) as (results & st' & W).
  exists crew, results, st'. split; [ exact C | ]. split; [ exact W | ].
  destruct (Spec results st' W)
    as (r1 & r2 & r3 & t1 & t2 & t3 & -> & _ & _ & ->).
  split; reflexivity.
Defined.

Lemma no_description_after_failed_discovery_witness :
  exists m log',
    AdvancedAgent.new_manager gateway_down (lit "http://localhost:3000") []
    = (Ok m, log') /\
    Crew.get_tool_description m (lit "web_search")
    = Ok (JStr (lit "No description available")).
Proof.
  destruct (@no_description_after_failed_discovery gateway_down
              (lit "http://localhost:3000") [] eq_refl)
    as (m & log' & E & H).
  exists m, log'. split; [ exact E | apply H ].
Defined.

Lemma step_key_determines_step_witness :
  AdvancedAgent.step_key 1 (lit "1_a") <> AdvancedAgent.step_key 11 (lit "a").
Proof.
  intros E. apply step_key_determines_step in E. destruct E as [E _].
  discriminate E.
Defined.

Lemma system_prompt_names_the_tools_witness :
  contains (lit "duckduckgo") (AdvancedAgent.get_system_prompt researcher)
  = true.
Proof.
  exact (proj1 (proj2 (proj2 (proj2
           (system_prompt_names_the_tools researcher))))
           (lit "duckduckgo") (or_intror (or_introl eq_refl))).
Defined.

End MoreRuns.
